(** * Gmail sender: a shallow embedding of [main.py] and its properties

    The development follows the source file:

    - [PyStr]   the Python [str] and [os.path] functions the program calls
                ([strip], [split(",")], [", ".join], [os.path.splitext],
                [os.path.basename], [os.path.join]);
    - [Re]      the fragment of Python's [re] the pattern of
                [is_valid_email] is written in, with the meaning [re.match]
                gives to [^] and [$];
    - [Email]   [is_valid_email] and the recipient normalisation of the send
                handler;
    - the world the program acts on: the temporary files, the names
      [tempfile] draws, the SMTP relay, the Mongo collection, the Streamlit
      page and session;
    - [Py]      computations over a state that return or raise, with
                [try]/[except] and [try]/[finally];
    - [Os]      the library calls of the program ([tempfile], [os],
                [smtplib], [st.error] and the like) on the world;
    - [Main]    [save_uploaded_files_to_tmp], [build_message],
                [send_via_gmail_ssl] and the send handler;
    - [Mongo]   [load_defaults_from_mongo] and the save handler.

    Definitions come first, properties after them.

    A Python [str] is a [string]: a sequence of code points below 256.  The
    pattern of [is_valid_email] only mentions ASCII characters and the inputs
    of every statement below are ASCII.  A Python [int] is a [Z], a [bytes]
    value a [list Byte.byte]. *)

From Stdlib Require Import Ascii String.
From stdpp Require Import gmap strings list.

(** ** Python [str] methods *)

Module PyStr.

(** [str.isspace] on one code point below 256: the characters whose
    bidirectional class is WS, B or S, or whose category is Zs. *)
Definition is_space (c : ascii) : bool :=
  let n := nat_of_ascii c in
  ((9 <=? n) && (n <=? 13)) || ((28 <=? n) && (n <=? 32))
  || (n =? 133) || (n =? 160).

Definition is_empty (s : string) : bool :=
  match s with EmptyString => true | String _ _ => false end.

(** truthiness of a [str]: [bool(s)] *)
Definition truthy (s : string) : bool := negb (is_empty s).

Fixpoint lstrip (s : string) : string :=
  match s with
  | EmptyString => EmptyString
  | String c s' => if is_space c then lstrip s' else s
  end.

Fixpoint rstrip (s : string) : string :=
  match s with
  | EmptyString => EmptyString
  | String c s' =>
      let r := rstrip s' in
      if is_space c && is_empty r then EmptyString else String c r
  end.

(** [s.strip()] *)
Definition strip (s : string) : string := rstrip (lstrip s).

(** [s.split(sep)] for a one-character separator: every occurrence
    splits, empty pieces are kept, and the empty string gives [[""]]. *)
Fixpoint split (sep : ascii) (s : string) : list string :=
  match s with
  | EmptyString => [EmptyString]
  | String c s' =>
      if Ascii.eqb c sep then EmptyString :: split sep s'
      else match split sep s' with
           | piece :: pieces => String c piece :: pieces
           | [] => [String c EmptyString]
           end
  end.

(** [sep.join(l)] *)
Fixpoint join (sep : string) (l : list string) : string :=
  match l with
  | [] => EmptyString
  | [x] => x
  | x :: rest => x +:+ sep +:+ join sep rest
  end.

Fixpoint all_chars (p : ascii -> bool) (s : string) : bool :=
  match s with
  | EmptyString => true
  | String c s' => p c && all_chars p s'
  end.

Fixpoint any_char (p : ascii -> bool) (s : string) : bool :=
  match s with
  | EmptyString => false
  | String c s' => p c || any_char p s'
  end.

(** [s.endswith(c)] for one character *)
Fixpoint ends_with (c : ascii) (s : string) : bool :=
  match s with
  | EmptyString => false
  | String a EmptyString => Ascii.eqb a c
  | String _ s' => ends_with c s'
  end.

(** [s.rfind(c)]: the index of the last occurrence, or [-1] *)
Fixpoint rfind_from (c : ascii) (s : string) (i : Z) : Z :=
  match s with
  | EmptyString => (-1)%Z
  | String a s' =>
      let r := rfind_from c s' (i + 1)%Z in
      if (0 <=? r)%Z then r else if Ascii.eqb a c then i else (-1)%Z
  end.
Definition rfind (c : ascii) (s : string) : Z := rfind_from c s 0%Z.

(** the slices [s[i:j]] and [s[i:]] for indices within the string *)
Definition slice (s : string) (i j : Z) : string :=
  String.substring (Z.to_nat i) (Z.to_nat (j - i)) s.
Definition slice_from (s : string) (i : Z) : string :=
  String.substring (Z.to_nat i) (String.length s - Z.to_nat i) s.

(** [os.path.splitext] (posixpath): the extension starts at the last dot
    of the last path component; dots that lead the component do not start
    an extension. *)
Definition splitext (p : string) : string * string :=
  let sepIndex := rfind "/"%char p in
  let dotIndex := rfind "."%char p in
  if (sepIndex <? dotIndex)%Z
     && any_char (fun c => negb (Ascii.eqb c "."%char))
                 (slice p (sepIndex + 1) dotIndex)
  then (slice p 0 dotIndex, slice_from p dotIndex)
  else (p, EmptyString).

(** [os.path.basename] (posixpath) *)
Definition basename (p : string) : string :=
  slice_from p (rfind "/"%char p + 1).

Definition starts_with (c : ascii) (s : string) : bool :=
  match s with
  | String a _ => Ascii.eqb a c
  | EmptyString => false
  end.

(** [os.path.join(a, b)] (posixpath) *)
Definition path_join (a b : string) : string :=
  if starts_with "/"%char b then b
  else if is_empty a || ends_with "/"%char a then a +:+ b
  else a +:+ "/" +:+ b.

End PyStr.

(** ** The fragment of [re] used by the program *)

Module Re.

(** A pattern is a sequence of items: the anchors, a literal character and
    a character class under [+]. *)
Inductive item : Type :=
| Bol                                  (* ^ *)
| Eol                                  (* $ *)
| Lit (c : ascii)                      (* an escaped or plain character *)
| ClassPlus (cls : ascii -> bool).     (* [...]+ *)

Definition in_range (lo hi c : ascii) : bool :=
  (nat_of_ascii lo <=? nat_of_ascii c) && (nat_of_ascii c <=? nat_of_ascii hi).

(** Without [re.MULTILINE], [$] matches at the end of the string and just
    before a newline that ends the string. *)
Definition at_eol (s : string) : bool :=
  match s with
  | EmptyString => true
  | String c EmptyString => Ascii.eqb c "010"%char
  | _ => false
  end.

(** [matches items start s]: the pattern [items] matches at the current
    position, where [s] is the rest of the subject and [start] tells
    whether the position is the beginning of the subject.  As for
    [re.match], the subject need not be consumed to its end. *)
Fixpoint matches (items : list item) : bool -> string -> bool :=
  match items with
  | [] => fun _ _ => true
  | Bol :: rest => fun start s => start && matches rest start s
  | Eol :: rest => fun start s => at_eol s && matches rest start s
  | Lit c :: rest => fun _ s =>
      match s with
      | String a s' => Ascii.eqb a c && matches rest false s'
      | EmptyString => false
      end
  | ClassPlus cls :: rest => fun _ s =>
      match s with
      | String a s' =>
          cls a &&
          (fix more (t : string) : bool :=
             matches rest false t
             || match t with
                | String b t' => cls b && more t'
                | EmptyString => false
                end) s'
      | EmptyString => false
      end
  end.

(** the loop of a class under [+], after its first character *)
Definition more (cls : ascii -> bool) (rest : list item) : string -> bool :=
  fix more (t : string) : bool :=
    matches rest false t
    || match t with
       | String b t' => cls b && more t'
       | EmptyString => false
       end.

(** [bool(re.match(pattern, s))] *)
Definition re_match (pattern : list item) (s : string) : bool :=
  matches pattern true s.

End Re.

(** ** Email validation and recipient normalisation *)

Module Email.
Import PyStr Re.

Definition is_alnum (c : ascii) : bool :=
  in_range "a"%char "z"%char c || in_range "A"%char "Z"%char c
  || in_range "0"%char "9"%char c.

(** [[a-zA-Z0-9_.+-]] *)
Definition local_class (c : ascii) : bool :=
  is_alnum c || Ascii.eqb c "_"%char || Ascii.eqb c "."%char || Ascii.eqb c "+"%char
  || Ascii.eqb c "-"%char.

(** [[a-zA-Z0-9-]] *)
Definition label_class (c : ascii) : bool :=
  is_alnum c || Ascii.eqb c "-"%char.

(** [[a-zA-Z0-9-.]] *)
Definition tail_class (c : ascii) : bool :=
  is_alnum c || Ascii.eqb c "-"%char || Ascii.eqb c "."%char.

(** [r"^[a-zA-Z0-9_.+-]+@[a-zA-Z0-9-]+\.[a-zA-Z0-9-.]+$"] *)
Definition pattern : list item :=
  [Bol; ClassPlus local_class; Lit "@"%char; ClassPlus label_class; Lit "."%char;
   ClassPlus tail_class; Eol].

Definition is_valid_email (email : string) : bool :=
  re_match pattern email.

Definition newline : string := String "010"%char EmptyString.

(** the strings the pattern describes, up to what [$] lets follow: a
    non-empty [local] of the first class, [@], a non-empty [first] of the
    second class, a dot, and a non-empty [rest] of the third class *)
Definition local_first_rest (s : string) : Prop :=
  exists l first rest : string,
    s = l +:+ "@" +:+ first +:+ "." +:+ rest
    /\ l <> "" /\ all_chars local_class l = true
    /\ first <> "" /\ all_chars label_class first = true
    /\ rest <> "" /\ all_chars tail_class rest = true.

(** [[r.strip() for r in recipients_raw.split(",") if r.strip()]] *)
Definition normalize_recipients (recipients_raw : string) : list string :=
  map strip (filter (fun r => truthy (strip r) = true) (split ","%char recipients_raw)).

(** [[r for r in recipients if not is_valid_email(r)]] *)
Definition invalid_emails (recipients : list string) : list string :=
  filter (fun r => is_valid_email r = false) recipients.

End Email.


(** ** The world of the program *)

(** The exceptions the program can meet.  All of them are subclasses of
    [Exception]. *)
Inductive exn : Type :=
| FileExistsError                               (* tempfile: no usable name *)
| OSError (msg : string)                        (* write, remove, open *)
| SMTPAuthenticationError
| SMTPRecipientsRefused (refused : list string)
| SMTPException (msg : string)                 (* any other transport failure *)
| PyMongoError (msg : string).

(** [str(e)] *)
Definition exn_str (e : exn) : string :=
  match e with
  | FileExistsError => "No usable temporary file name found"
  | OSError msg => msg
  | SMTPAuthenticationError => "Authentication failed"
  | SMTPRecipientsRefused _ => "Recipients refused"
  | SMTPException msg => msg
  | PyMongoError msg => msg
  end.

Inductive result (A : Type) : Type :=
| Ok (a : A)
| Raise (e : exn).
Arguments Ok {A} a.
Arguments Raise {A} e.

(** [UploadedFile]: [f.name], [f.size], [f.getbuffer()] *)
Record UploadedFile : Type := {
  uf_name : string;
  uf_size : Z;
  uf_content : list Byte.byte
}.

(** [{"name": f.name, "size": f.size}] *)
Record FileMeta : Type := {
  fm_name : string;
  fm_size : Z
}.

(** The values stored in a document of the [defaults] collection. *)
Inductive value : Type :=
| VStr (s : string)
| VMeta (l : list FileMeta).

(** One MIME part added by [build_message] for an attachment: the payload
    (sent base64-encoded) and its [Content-Disposition] header. *)
Record Attachment : Type := {
  att_payload : list Byte.byte;
  att_disposition : string
}.

(** The [MIMEMultipart] message: its headers, the [MIMEText] part and the
    attachment parts in the order they were attached. *)
Record Message : Type := {
  msg_from : string;
  msg_to : string;
  msg_subject : string;
  msg_text : string;
  msg_attachments : list Attachment
}.

(** The Gmail relay as [smtplib] sees it. *)
Record Relay : Type := {
  relay_connect_error : option string;      (* [SMTP_SSL(...)] raises *)
  relay_accepts_login : string -> string -> bool;
  relay_accepts_rcpt : string -> bool;      (* the answer to RCPT TO *)
  relay_data_error : option string          (* DATA is refused *)
}.

Inductive smtp_event : Type :=
| SmtpConnect (host : string) (port : Z)
| SmtpLogin (user password : string)
| SmtpSendmail (sender : string) (recipients : list string) (msg : Message)
| SmtpQuit.

(** What Streamlit shows on the page. *)
Inductive ui_event : Type :=
| StError (text : string)
| StWarning (text : string)
| StSuccess (text : string).

(** The calls the send handler makes to the three functions it composes
    (ghost state, written by the handler before each call: it lets a
    statement say that a function was not called). *)
Inductive call : Type :=
| CallSave (files : list UploadedFile)
| CallBuild (recipients : list string) (paths : list string)
| CallSend (recipients : list string).

(** [st.session_state] *)
Record SessionState : Type := {
  default_subject : value;
  default_body : value;
  default_files : list UploadedFile;
  default_file_metadata : value
}.

Record World : Type := {
  fs : gmap string (list Byte.byte);   (* the regular files: path, content *)
  tmp_dir : string;                    (* [tempfile.gettempdir()] *)
  tmp_candidates : list string;        (* the random names [tempfile] draws *)
  disk_free : nat;                     (* bytes that can still be written *)
  undeletable : gset string;           (* paths on which [os.remove] raises *)
  unreadable : gset string;            (* paths on which [open] raises *)
  relay : Relay;
  smtp_log : list smtp_event;
  page : list ui_event;
  call_log : list call;
  session : SessionState;
  mongo_up : bool;                     (* the document store can be reached *)
  defaults_collection : list (gmap string value)
}.

(** [GMAIL_USER] and [GMAIL_APP_PASSWORD] *)
Record Config : Type := {
  GMAIL_USER : string;
  GMAIL_APP_PASSWORD : string
}.

(** ** Computations: state passing with exceptions *)

Module Py.

Definition M (S A : Type) : Type := S -> result A * S.

Definition ret {S A} (a : A) : M S A := fun s => (Ok a, s).
Definition raise {S A} (e : exn) : M S A := fun s => (Raise e, s).
Definition bind {S A B} (m : M S A) (k : A -> M S B) : M S B :=
  fun s => match m s with
           | (Ok a, s') => k a s'
           | (Raise e, s') => (Raise e, s')
           end.
Definition get {S} : M S S := fun s => (Ok s, s).
Definition modify {S} (f : S -> S) : M S unit := fun s => (Ok tt, f s).

(** [try: m except Exception as e: h(e)] *)
Definition try_except {S A} (m : M S A) (h : exn -> M S A) : M S A :=
  fun s => match m s with
           | (Ok a, s') => (Ok a, s')
           | (Raise e, s') => h e s'
           end.

(** [try: m finally: f]: [f] runs on every exit of [m]; an exception of
    [f] replaces the outcome of [m], otherwise that outcome stands. *)
Definition try_finally {S A} (m : M S A) (f : M S unit) : M S A :=
  fun s => match m s with
           | (r, s') => match f s' with
                        | (Ok _, s'') => (r, s'')
                        | (Raise e, s'') => (Raise e, s'')
                        end
           end.

(** a computation on the world, run where local variables of type [L]
    are in scope as well *)
Definition lift {L S A} (m : M S A) : M (L * S) A :=
  fun ls => match m (snd ls) with (r, s') => (r, (fst ls, s')) end.

(** [m] leaves the part [proj] of the state as it was, however it ends *)
Definition keeps {S A B} (proj : S -> B) (m : M S A) : Prop :=
  forall s, proj (snd (m s)) = proj s.

End Py.

Notation "x <- m ;; k" := (Py.bind m (fun x => k))
  (at level 90, m at level 80, right associativity, only parsing).
Notation "m ;;; k" := (Py.bind m (fun _ => k))
  (at level 90, right associativity, only parsing).

(** ** Updates of one field of the world *)

Definition with_fs (f : gmap string (list Byte.byte) -> gmap string (list Byte.byte)) (w : World) : World :=
  {| fs := f (fs w);
     tmp_dir := tmp_dir w;
     tmp_candidates := tmp_candidates w;
     disk_free := disk_free w;
     undeletable := undeletable w;
     unreadable := unreadable w;
     relay := relay w;
     smtp_log := smtp_log w;
     page := page w;
     call_log := call_log w;
     session := session w;
     mongo_up := mongo_up w;
     defaults_collection := defaults_collection w |}.

Definition with_tmp_candidates (f : list string -> list string) (w : World) : World :=
  {| fs := fs w;
     tmp_dir := tmp_dir w;
     tmp_candidates := f (tmp_candidates w);
     disk_free := disk_free w;
     undeletable := undeletable w;
     unreadable := unreadable w;
     relay := relay w;
     smtp_log := smtp_log w;
     page := page w;
     call_log := call_log w;
     session := session w;
     mongo_up := mongo_up w;
     defaults_collection := defaults_collection w |}.

Definition with_disk_free (f : nat -> nat) (w : World) : World :=
  {| fs := fs w;
     tmp_dir := tmp_dir w;
     tmp_candidates := tmp_candidates w;
     disk_free := f (disk_free w);
     undeletable := undeletable w;
     unreadable := unreadable w;
     relay := relay w;
     smtp_log := smtp_log w;
     page := page w;
     call_log := call_log w;
     session := session w;
     mongo_up := mongo_up w;
     defaults_collection := defaults_collection w |}.

Definition with_smtp_log (f : list smtp_event -> list smtp_event) (w : World) : World :=
  {| fs := fs w;
     tmp_dir := tmp_dir w;
     tmp_candidates := tmp_candidates w;
     disk_free := disk_free w;
     undeletable := undeletable w;
     unreadable := unreadable w;
     relay := relay w;
     smtp_log := f (smtp_log w);
     page := page w;
     call_log := call_log w;
     session := session w;
     mongo_up := mongo_up w;
     defaults_collection := defaults_collection w |}.

Definition with_page (f : list ui_event -> list ui_event) (w : World) : World :=
  {| fs := fs w;
     tmp_dir := tmp_dir w;
     tmp_candidates := tmp_candidates w;
     disk_free := disk_free w;
     undeletable := undeletable w;
     unreadable := unreadable w;
     relay := relay w;
     smtp_log := smtp_log w;
     page := f (page w);
     call_log := call_log w;
     session := session w;
     mongo_up := mongo_up w;
     defaults_collection := defaults_collection w |}.

Definition with_call_log (f : list call -> list call) (w : World) : World :=
  {| fs := fs w;
     tmp_dir := tmp_dir w;
     tmp_candidates := tmp_candidates w;
     disk_free := disk_free w;
     undeletable := undeletable w;
     unreadable := unreadable w;
     relay := relay w;
     smtp_log := smtp_log w;
     page := page w;
     call_log := f (call_log w);
     session := session w;
     mongo_up := mongo_up w;
     defaults_collection := defaults_collection w |}.

Definition with_session (f : SessionState -> SessionState) (w : World) : World :=
  {| fs := fs w;
     tmp_dir := tmp_dir w;
     tmp_candidates := tmp_candidates w;
     disk_free := disk_free w;
     undeletable := undeletable w;
     unreadable := unreadable w;
     relay := relay w;
     smtp_log := smtp_log w;
     page := page w;
     call_log := call_log w;
     session := f (session w);
     mongo_up := mongo_up w;
     defaults_collection := defaults_collection w |}.

Definition with_defaults_collection (f : list (gmap string value) -> list (gmap string value)) (w : World) : World :=
  {| fs := fs w;
     tmp_dir := tmp_dir w;
     tmp_candidates := tmp_candidates w;
     disk_free := disk_free w;
     undeletable := undeletable w;
     unreadable := unreadable w;
     relay := relay w;
     smtp_log := smtp_log w;
     page := page w;
     call_log := call_log w;
     session := session w;
     mongo_up := mongo_up w;
     defaults_collection := f (defaults_collection w) |}.

(** ** The operating system, Streamlit and the relay *)

Module Os.
Import PyStr Py.

Definition st_error (text : string) : M World unit :=
  modify (with_page (fun p => p ++ [StError text])).
Definition st_warning (text : string) : M World unit :=
  modify (with_page (fun p => p ++ [StWarning text])).
Definition st_success (text : string) : M World unit :=
  modify (with_page (fun p => p ++ [StSuccess text])).

Definition log_call (c : call) : M World unit :=
  modify (with_call_log (fun l => l ++ [c])).
Definition log_smtp (e : smtp_event) : M World unit :=
  modify (with_smtp_log (fun l => l ++ [e])).

(** [os.path.exists(p)] and [os.path.isfile(p)]: the model has regular
    files only. *)
Definition path_exists (w : World) (p : string) : bool :=
  bool_decide (is_Some (fs w !! p)).
Definition os_path_exists (p : string) : M World bool :=
  fun w => (Ok (path_exists w p), w).
Definition os_path_isfile (p : string) : M World bool :=
  fun w => (Ok (path_exists w p), w).

Definition tmp_path (dir prefix name suffix : string) : string :=
  path_join dir (prefix +:+ name +:+ suffix).

(** The loop of [tempfile]: draw names until one is not taken. *)
Fixpoint draw_name (files : gmap string (list Byte.byte))
    (dir prefix suffix : string) (names : list string)
  : option (string * list string) :=
  match names with
  | [] => None
  | name :: rest =>
      let path := tmp_path dir prefix name suffix in
      match files !! path with
      | Some _ => draw_name files dir prefix suffix rest
      | None => Some (path, rest)
      end
  end.

(** [tempfile.NamedTemporaryFile(prefix=.., suffix=.., delete=False)]:
    creates an empty file under a name that was not taken and gives its
    path ([tmp.name]). *)
Definition NamedTemporaryFile (prefix suffix : string) : M World string :=
  fun w =>
    match draw_name (fs w) (tmp_dir w) prefix suffix (tmp_candidates w) with
    | None => (Raise FileExistsError, with_tmp_candidates (fun _ => []) w)
    | Some (path, rest) =>
        (Ok path,
         with_fs (fun m => <[path := []]> m)
                 (with_tmp_candidates (fun _ => rest) w))
    end.

(** [tmp.write(buffer); tmp.flush(); tmp.close()] *)
Definition tmp_write (path : string) (buffer : list Byte.byte)
  : M World unit :=
  fun w =>
    if length buffer <=? disk_free w
    then (Ok tt,
          with_fs (fun m => <[path := buffer]> m)
                  (with_disk_free (fun n => n - length buffer) w))
    else (Raise (OSError "No space left on device"), w).

(** [open(path, "rb").read()] *)
Definition read_file (path : string) : M World (list Byte.byte) :=
  fun w =>
    if bool_decide (path ∈ unreadable w)
    then (Raise (OSError "Permission denied"), w)
    else match fs w !! path with
         | Some content => (Ok content, w)
         | None => (Raise (OSError "No such file or directory"), w)
         end.

(** [os.remove(p)] *)
Definition os_remove (p : string) : M World unit :=
  fun w =>
    if bool_decide (p ∈ undeletable w)
    then (Raise (OSError "Permission denied"), w)
    else match fs w !! p with
         | Some content =>
             (Ok tt,
              with_fs (fun m => delete p m)
                      (with_disk_free (fun n => n + length content) w))
         | None => (Raise (OSError "No such file or directory"), w)
         end.

(** [smtplib.SMTP_SSL(host, port)] *)
Definition SMTP_SSL (host : string) (port : Z) : M World unit :=
  log_smtp (SmtpConnect host port) ;;;
  r <- (fun w => (Ok (relay w), w)) ;;
  match relay_connect_error r with
  | Some text => raise (SMTPException text)
  | None => ret tt
  end.

(** [server.login(user, password)] *)
Definition login (user password : string) : M World unit :=
  log_smtp (SmtpLogin user password) ;;;
  r <- (fun w => (Ok (relay w), w)) ;;
  if relay_accepts_login r user password then ret tt
  else raise SMTPAuthenticationError.

(** [server.sendmail(sender, recipients, msg)]: raises
    [SMTPRecipientsRefused] when the relay refused all the recipients,
    and otherwise returns the recipients that were refused. *)
Definition sendmail (sender : string) (recipients : list string)
    (msg : Message) : M World (list string) :=
  log_smtp (SmtpSendmail sender recipients msg) ;;;
  r <- (fun w => (Ok (relay w), w)) ;;
  let senderrs :=
    filter (fun to => relay_accepts_rcpt r to = false) recipients in
  if length senderrs =? length recipients
  then raise (SMTPRecipientsRefused senderrs)
  else match relay_data_error r with
       | Some text => raise (SMTPException text)
       | None => ret senderrs
       end.

(** leaving the [with] block: [QUIT] and close *)
Definition smtp_exit : M World unit := log_smtp SmtpQuit.

End Os.

(** ** The functions of [main.py] *)

Module Main.
Import PyStr Py Os Email.

Definition SMTP_HOST : string := "smtp.gmail.com".
Definition SMTP_PORT_SSL : Z := 465.

(** [max_size = 10 * 1024 * 1024] *)
Definition max_size : Z := 10 * 1024 * 1024.

Definition too_large_warning (f : UploadedFile) : string :=
  "File '" +:+ uf_name f +:+ "' exceeds 10MB and will be skipped.".

(** the body of the [for f in files] loop of [save_uploaded_files_to_tmp];
    [paths] is the list built so far *)
Definition stage_file (f : UploadedFile) (paths : list string)
  : M World (list string) :=
  if (max_size <? uf_size f)%Z
  then st_warning (too_large_warning f) ;;; ret paths
  else
    let suffix := snd (splitext (uf_name f)) in
    tmp <- NamedTemporaryFile "stmail_" suffix ;;
    tmp_write tmp (uf_content f) ;;;
    ret (paths ++ [tmp]).

Fixpoint stage_loop (files : list UploadedFile) (paths : list string)
  : M World (list string) :=
  match files with
  | [] => ret paths
  | f :: rest => paths' <- stage_file f paths ;; stage_loop rest paths'
  end.

Definition save_uploaded_files_to_tmp (files : list UploadedFile)
  : M World (list string) :=
  stage_loop files [].

Definition dquote : string := String (ascii_of_nat 34) EmptyString.

(** [f'attachment; filename="{filename}"'] *)
Definition content_disposition (filename : string) : string :=
  "attachment; filename=" +:+ dquote +:+ filename +:+ dquote.

(** the [for path in attachment_paths] loop of [build_message]; [parts]
    are the attachments attached so far *)
Fixpoint attach_loop (attachment_paths : list string)
    (parts : list Attachment) : M World (list Attachment) :=
  match attachment_paths with
  | [] => ret parts
  | path :: rest =>
      isfile <- os_path_isfile path ;;
      if negb isfile then attach_loop rest parts
      else
        payload <- read_file path ;;
        let filename := basename path in
        attach_loop rest
          (parts ++ [{| att_payload := payload;
                        att_disposition := content_disposition filename |}])
  end.

Definition build_message (sender : string) (recipients : list string)
    (subject body : string) (attachment_paths : list string)
  : M World Message :=
  parts <- attach_loop attachment_paths [] ;;
  ret {| msg_from := sender;
         msg_to := join ", " recipients;
         msg_subject := if truthy subject then subject else "No Subject";
         msg_text := body;
         msg_attachments := parts |}.

Definition auth_failed_text : string :=
  "Authentication failed. Check your Gmail email and app password in .env.".
Definition recipients_refused_text : string :=
  "One or more recipient emails are invalid.".

Definition send_via_gmail_ssl (sender app_password : string)
    (recipients : list string) (msg : Message) : M World (option string) :=
  try_except
    (SMTP_SSL SMTP_HOST SMTP_PORT_SSL ;;;
     try_finally
       (login sender app_password ;;;
        sendmail sender recipients msg ;;;
        ret tt)
       smtp_exit ;;;
     ret None)
    (fun e =>
       match e with
       | SMTPAuthenticationError => ret (Some auth_failed_text)
       | SMTPRecipientsRefused _ => ret (Some recipients_refused_text)
       | _ => ret (Some ("Failed to send email: " +:+ exn_str e))
       end).

(** truthiness of a list *)
Definition nonempty {A} (l : list A) : bool :=
  match l with [] => false | _ :: _ => true end.

(** [tmp_paths.extend(paths)] on the local variable of the handler *)
Definition extend_tmp_paths (paths : list string)
  : M (list string * World) unit :=
  modify (fun ls => (fst ls ++ paths, snd ls)).

(** the body of the [try] of the send handler; the state pairs the local
    variable [tmp_paths] with the world *)
Definition send_try (cfg : Config) (recipients : list string)
    (s_subject s_body : string) (more_files : list UploadedFile)
  : M (list string * World) unit :=
  ls <- get ;;
  let files := default_files (session (snd ls)) in
  (if nonempty files
   then lift (log_call (CallSave files)) ;;;
        paths <- lift (save_uploaded_files_to_tmp files) ;;
        extend_tmp_paths paths
   else ret tt) ;;;
  (if nonempty more_files
   then lift (log_call (CallSave more_files)) ;;;
        paths <- lift (save_uploaded_files_to_tmp more_files) ;;
        extend_tmp_paths paths
   else ret tt) ;;;
  ls <- get ;;
  let tmp_paths := fst ls in
  lift (log_call (CallBuild recipients tmp_paths)) ;;;
  msg <- lift (build_message (GMAIL_USER cfg) recipients s_subject s_body
                 tmp_paths) ;;
  lift (log_call (CallSend recipients)) ;;;
  error <- lift (send_via_gmail_ssl (GMAIL_USER cfg)
                   (GMAIL_APP_PASSWORD cfg) recipients msg) ;;
  match error with
  | Some text =>
      if truthy text then lift (st_error text)
      else lift (st_success "Email sent successfully.")
  | None => lift (st_success "Email sent successfully.")
  end.

(** the [for p in tmp_paths] loop of the [finally] *)
Fixpoint cleanup (tmp_paths : list string) : M World unit :=
  match tmp_paths with
  | [] => ret tt
  | p :: rest =>
      try_except
        (present <- os_path_exists p ;;
         if present then os_remove p else ret tt)
        (fun _ => ret tt) ;;;
      cleanup rest
  end.

Definition send_finally : M (list string * World) unit :=
  ls <- get ;;
  lift (cleanup (fst ls)).

(** [if send_btn: ...] *)
Definition send_handler (cfg : Config) (recipients_raw s_subject s_body : string)
    (more_files : list UploadedFile) : M World unit :=
  if negb (truthy (strip recipients_raw))
  then st_error "Please enter at least one recipient."
  else
    let recipients := normalize_recipients recipients_raw in
    let invalid := invalid_emails recipients in
    if nonempty invalid
    then st_error ("Invalid email addresses: " +:+ join ", " invalid)
    else fun w =>
      match try_finally
              (send_try cfg recipients s_subject s_body more_files)
              send_finally ([], w) with
      | (r, (_, w')) => (r, w')
      end.

(** the size of [f] is at most [max_size] *)
Definition within_cap (f : UploadedFile) : bool := (uf_size f <=? max_size)%Z.

(** [path] is the temporary file staged for [f] from the world [w], giving
    the world [w']: it did not exist in [w], its name is [stmail_], a name
    drawn from the supply of [w] and the extension of [f.name], and in [w']
    it holds the content of [f] *)
Definition staged_as (w w' : World) (path : string) (f : UploadedFile) : Prop :=
  fs w !! path = None
  /\ fs w' !! path = Some (uf_content f)
  /\ exists name : string,
       name ∈ tmp_candidates w
       /\ path = path_join (tmp_dir w)
                   ("stmail_" +:+ name +:+ snd (splitext (uf_name f))).

(** the paths [tempfile] gives to [files] when each takes the next name of
    the supply *)
Definition drawn_paths (w : World) (files : list UploadedFile) : list string :=
  zip_with (fun name f =>
              tmp_path (tmp_dir w) "stmail_" name (snd (splitext (uf_name f))))
    (tmp_candidates w) files.

Fixpoint total_bytes (files : list UploadedFile) : nat :=
  match files with
  | [] => 0
  | f :: rest => length (uf_content f) + total_bytes rest
  end.

(** the world after [f] has been written under the next name of the supply *)
Definition after_staging (f : UploadedFile) (path : string)
    (names : list string) (w : World) : World :=
  with_fs (fun m => <[path := uf_content f]> m)
    (with_disk_free (fun n => n - length (uf_content f))
       (with_fs (fun m => <[path := []]> m)
          (with_tmp_candidates (fun _ => names) w))).

(** one of the two staging calls of the handler, with what it returns when
    there is no file to stage *)
Definition staging_call (files : list UploadedFile) : M World (list string) :=
  if nonempty files
  then log_call (CallSave files) ;;; save_uploaded_files_to_tmp files
  else ret [].

(** the attachment parts of the files among [paths] that exist in [w] *)
Definition attachments_of (w : World) (paths : list string) : list Attachment :=
  omap (fun path =>
          (fun payload => {| att_payload := payload;
                             att_disposition :=
                               content_disposition (basename path) |})
          <$> fs w !! path) paths.

(** what [send_via_gmail_ssl] returns, read off the relay: the outcome of
    the one session it opens *)
Definition session_outcome (r : Relay) (sender app_password : string)
    (recipients : list string) : option string :=
  match relay_connect_error r with
  | Some text => Some ("Failed to send email: " +:+ text)
  | None =>
      if negb (relay_accepts_login r sender app_password)
      then Some auth_failed_text
      else if forallb (fun to => negb (relay_accepts_rcpt r to)) recipients
      then Some recipients_refused_text
      else match relay_data_error r with
           | Some text => Some ("Failed to send email: " +:+ text)
           | None => None
           end
  end.

(** the number of sessions opened in a log *)
Definition is_connect (e : smtp_event) : bool :=
  match e with SmtpConnect _ _ => true | _ => false end.
Definition connects (log : list smtp_event) : nat :=
  length (List.filter is_connect log).

End Main.

(** ** The defaults in MongoDB *)

#[global] Instance FileMeta_eq_dec : EqDecision FileMeta.
Proof. solve_decision. Defined.

#[global] Instance value_eq_dec : EqDecision value.
Proof. solve_decision. Defined.

Module Mongo.
Import PyStr Py Os.

(** the filter [{"user": owner}] *)
Definition is_owned_by (owner : string) (d : gmap string value) : bool :=
  bool_decide (d !! "user" = Some (VStr owner)).

(** [collection.find_one({"user": owner})] *)
Definition find_one (owner : string) (coll : list (gmap string value))
  : option (gmap string value) :=
  List.find (is_owned_by owner) coll.

(** [{"$set": fields}] applied to a document *)
Definition set_fields (fields : list (string * value))
    (d : gmap string value) : gmap string value :=
  foldl (fun acc kv => <[kv.1 := kv.2]> acc) d fields.

(** [collection.update_one({"user": owner}, {"$set": fields},
    upsert=True)]: the first document of the owner is updated; when there
    is none, a document is made of the filter and the fields. *)
Fixpoint update_one_upsert (owner : string) (fields : list (string * value))
    (coll : list (gmap string value)) : list (gmap string value) :=
  match coll with
  | [] => [set_fields fields {["user" := VStr owner]}]
  | d :: rest =>
      if is_owned_by owner d then set_fields fields d :: rest
      else d :: update_one_upsert owner fields rest
  end.

(** a call to the server; it raises when the store cannot be reached *)
Definition mongo_call {A} (f : list (gmap string value) ->
                               A * list (gmap string value))
  : M World A :=
  fun w =>
    if mongo_up w
    then let (a, coll) := f (defaults_collection w) in
         (Ok a, with_defaults_collection (fun _ => coll) w)
    else (Raise (PyMongoError "connection failure"), w).

(** [d.get(key, default)] *)
Definition doc_get (d : gmap string value) (key : string)
    (default : value) : value :=
  match d !! key with Some v => v | None => default end.

Definition load_defaults_from_mongo (cfg : Config) : M World unit :=
  try_except
    (defaults <- mongo_call (fun coll => (find_one (GMAIL_USER cfg) coll, coll)) ;;
     match defaults with
     | Some d =>
         if bool_decide (d = ∅)
         then mongo_call (fun coll =>
                (tt, coll ++ [set_fields [("subject", VStr "");
                                          ("body", VStr "");
                                          ("file_metadata", VMeta [])]
                                {["user" := VStr (GMAIL_USER cfg)]}]))
         else modify (with_session (fun ss =>
                {| default_subject := doc_get d "subject" (VStr "");
                   default_body := doc_get d "body" (VStr "");
                   default_files := default_files ss;
                   default_file_metadata :=
                     doc_get d "file_metadata" (VMeta []) |}))
     | None =>
         mongo_call (fun coll =>
           (tt, coll ++ [set_fields [("subject", VStr "");
                                     ("body", VStr "");
                                     ("file_metadata", VMeta [])]
                           {["user" := VStr (GMAIL_USER cfg)]}]))
     end)
    (fun e => st_error ("Error loading defaults from MongoDB: " +:+ exn_str e)).

(** the fields the save handler sets *)
Definition saved_fields (subject body : string) (meta : list FileMeta)
  : list (string * value) :=
  [("subject", VStr subject); ("body", VStr body);
   ("file_metadata", VMeta meta)].

(** [[{"name": f.name, "size": f.size} for f in d_files]] *)
Definition file_metadata_of (d_files : list UploadedFile) : list FileMeta :=
  map (fun f => {| fm_name := uf_name f; fm_size := uf_size f |}) d_files.

(** the write of the save handler: the [update_one] call with its
    [try]/[except] *)
Definition save_defaults_to_mongo (cfg : Config) (d_subject d_body : string)
    (file_metadata : list FileMeta) : M World unit :=
  try_except
    (mongo_call (fun coll =>
       (tt, update_one_upsert (GMAIL_USER cfg)
              (saved_fields d_subject d_body file_metadata) coll)) ;;;
     st_success "Default content saved to MongoDB.")
    (fun e => st_error ("Error saving defaults to MongoDB: " +:+ exn_str e)).

(** [if save_defaults: ...] *)
Definition save_defaults_handler (cfg : Config) (d_subject d_body : string)
    (d_files : list UploadedFile) : M World unit :=
  let file_metadata := file_metadata_of d_files in
  modify (with_session (fun _ =>
    {| default_subject := VStr d_subject;
       default_body := VStr d_body;
       default_files := d_files;
       default_file_metadata := VMeta file_metadata |})) ;;;
  save_defaults_to_mongo cfg d_subject d_body file_metadata.

End Mongo.

(** ** The shape of an address, in the words of the specification

    [email_shape] is not taken from the program: it is the shape
    [local-part@domain] as the specification words it, to be compared with
    [is_valid_email]. *)

Module Spec.
Import PyStr Re.

Definition is_letter (c : ascii) : bool :=
  in_range "a"%char "z"%char c || in_range "A"%char "Z"%char c.
Definition is_digit (c : ascii) : bool := in_range "0"%char "9"%char c.

(** letters, digits and the characters [. _ + -] *)
Definition local_part_ok (l : string) : bool :=
  truthy l
  && all_chars (fun c => is_letter c || is_digit c || Ascii.eqb c "."%char
                         || Ascii.eqb c "_"%char || Ascii.eqb c "+"%char
                         || Ascii.eqb c "-"%char) l.

(** a label of letters, digits and hyphens *)
Definition label_ok (l : string) : bool :=
  truthy l
  && all_chars (fun c => is_letter c || is_digit c || Ascii.eqb c "-"%char) l.

(** labels joined by dots, with at least one dot *)
Definition domain_ok (d : string) : bool :=
  let labels := split "."%char d in
  (2 <=? length labels) && forallb label_ok labels.

Definition email_shape (s : string) : bool :=
  match split "@"%char s with
  | [l; d] => local_part_ok l && domain_ok d
  | _ => false
  end.

End Spec.

(** ** Worlds and inputs for the examples *)

Module Demo.

Definition relay_accepting : Relay :=
  {| relay_connect_error := None;
     relay_accepts_login := fun _ _ => true;
     relay_accepts_rcpt := fun _ => true;
     relay_data_error := None |}.

(** a relay that refuses the recipient [b@x.com] and accepts the others *)
Definition relay_refusing_b : Relay :=
  {| relay_connect_error := None;
     relay_accepts_login := fun _ _ => true;
     relay_accepts_rcpt := fun to => negb (String.eqb to "b@x.com");
     relay_data_error := None |}.

Definition session0 : SessionState :=
  {| default_subject := VStr "";
     default_body := VStr "";
     default_files := [];
     default_file_metadata := VMeta [] |}.

Definition world0 (r : Relay) : World :=
  {| fs := ∅;
     tmp_dir := "/tmp";
     tmp_candidates := ["k3v9x0aa"; "q1w2e3r4"; "zz8y7x6w"];
     disk_free := 100;
     undeletable := ∅;
     unreadable := ∅;
     relay := r;
     smtp_log := [];
     page := [];
     call_log := [];
     session := session0;
     mongo_up := true;
     defaults_collection := [] |}.

Definition note_txt : UploadedFile :=
  {| uf_name := "note.txt"; uf_size := 2; uf_content := [Byte.x68; Byte.x69] |}.

Definition photo_png : UploadedFile :=
  {| uf_name := "photo.png"; uf_size := 3;
     uf_content := [Byte.x89; Byte.x50; Byte.x4e] |}.

(** an upload over the cap: only its declared size matters to the program *)
Definition big_bin : UploadedFile :=
  {| uf_name := "big.bin"; uf_size := 10 * 1024 * 1024 + 1;
     uf_content := [Byte.x00] |}.

(** [world0] with room for [n] more bytes on the disk *)
Definition world_with_room (n : nat) : World :=
  with_disk_free (fun _ => n) (world0 relay_accepting).



Definition cfg0 : Config :=
  {| GMAIL_USER := "me@gmail.com"; GMAIL_APP_PASSWORD := "app-password" |}.

Definition msg0 : Message :=
  {| msg_from := "me@gmail.com";
     msg_to := "a@x.com, b@x.com";
     msg_subject := "Hello";
     msg_text := "Hi";
     msg_attachments := [] |}.

End Demo.

(** ** Parts of the handler and of the session, named for the properties *)

Module Parts.
Import PyStr Py Os Email Main.

(** one [if files: tmp_paths.extend(save_uploaded_files_to_tmp(files))]
    block of the handler *)
Definition staging_step (files : list UploadedFile)
  : M (list string * World) unit :=
  if nonempty files
  then lift (log_call (CallSave files)) ;;;
       paths <- lift (save_uploaded_files_to_tmp files) ;;
       extend_tmp_paths paths
  else ret tt.

(** the [try] body of the handler after its two staging blocks: build, send
    and report *)
Definition send_rest (cfg : Config) (recipients : list string)
    (s_subject s_body : string) : M (list string * World) unit :=
  ls <- get ;;
  let tmp_paths := fst ls in
  lift (log_call (CallBuild recipients tmp_paths)) ;;;
  msg <- lift (build_message (GMAIL_USER cfg) recipients s_subject s_body
                 tmp_paths) ;;
  lift (log_call (CallSend recipients)) ;;;
  error <- lift (send_via_gmail_ssl (GMAIL_USER cfg)
                   (GMAIL_APP_PASSWORD cfg) recipients msg) ;;
  match error with
  | Some text =>
      if truthy text then lift (st_error text)
      else lift (st_success "Email sent successfully.")
  | None => lift (st_success "Email sent successfully.")
  end.

(** the events of the session [send_via_gmail_ssl] opens with the relay
    [r] *)
Definition session_events (r : Relay) (sender app_password : string)
    (recipients : list string) (msg : Message) : list smtp_event :=
  SmtpConnect SMTP_HOST SMTP_PORT_SSL ::
  match relay_connect_error r with
  | Some _ => []
  | None =>
      SmtpLogin sender app_password ::
      (if relay_accepts_login r sender app_password
       then [SmtpSendmail sender recipients msg] else [])
      ++ [SmtpQuit]
  end.

(** the document [load_defaults_from_mongo] inserts for an owner that has
    none *)
Definition empty_defaults (owner : string) : gmap string value :=
  Mongo.set_fields [("subject", VStr ""); ("body", VStr "");
                    ("file_metadata", VMeta [])]
    {["user" := VStr owner]}.

(** the attachment made of the staged file [path] of the upload [f] *)
Definition attachment_of (path : string) (f : UploadedFile) : Attachment :=
  {| att_payload := uf_content f;
     att_disposition := content_disposition (basename path) |}.

End Parts.

(** ** Start of the script: configuration and session state *)

Module Startup.
Import PyStr.

(** [not x] for the result of [os.getenv]: the variable is unset or empty *)
Definition missing (x : option string) : bool :=
  match x with
  | None => true
  | Some s => is_empty s
  end.

(** how the configuration block ends: [st.stop()] after the errors shown,
    or the four values.  [st.stop()] ends the run with an exception that is
    not an [Exception], so the [except Exception] of the block does not
    catch it. *)
Inductive startup : Type :=
| Stopped (shown : list ui_event)
| Loaded (cfg : Config) (mongodb_username mongodb_password : string).

(** the [try] block that reads [GMAIL_EMAIL], [GMAIL_APP_PASSWORD],
    [MONGODB_USERNAME] and [MONGODB_PASSWORD]; [env] is [os.environ] after
    [load_dotenv()] *)
Definition load_env (env : gmap string string) : startup :=
  let gmail_user := env !! "GMAIL_EMAIL" in
  let gmail_app_password := env !! "GMAIL_APP_PASSWORD" in
  let mongodb_username := env !! "MONGODB_USERNAME" in
  let mongodb_password := env !! "MONGODB_PASSWORD" in
  if missing gmail_user
  then Stopped [StError "GMAIL_EMAIL not found in .env file."]
  else if missing gmail_app_password
  then Stopped [StError "GMAIL_APP_PASSWORD not found in .env file."]
  else if missing mongodb_username || missing mongodb_password
  then Stopped [StError "MongoDB credentials (MONGODB_USERNAME or MONGODB_PASSWORD) not found in .env file."]
  else Loaded {| GMAIL_USER := default "" gmail_user;
                 GMAIL_APP_PASSWORD := default "" gmail_app_password |}
         (default "" mongodb_username) (default "" mongodb_password).

(** the keys of [st.session_state] the script initialises, with their
    defaults: [""] for the two texts and [[]] for the three lists *)
Definition session_defaults {V} (empty_str empty_list : V) : list (string * V) :=
  [("default_subject", empty_str); ("default_body", empty_str);
   ("default_files", empty_list); ("default_file_metadata", empty_list);
   ("tmp_paths", empty_list)].

(** [if key not in st.session_state: st.session_state[key] = default] *)
Definition init_key {V} (st : gmap string V) (kd : string * V) : gmap string V :=
  match st !! kd.1 with
  | Some _ => st
  | None => <[kd.1 := kd.2]> st
  end.

(** the [for key, default in [...]] loop *)
Definition init_session_state {V} (defaults : list (string * V))
    (st : gmap string V) : gmap string V :=
  foldl init_key st defaults.

End Startup.

(** * Properties *)

(** ** Strings *)

#[local] Arguments String.append !s1 s2 : simpl nomatch.

Section string_facts.
Import PyStr.

Lemma str_app_empty_r (s : string) : s +:+ "" = s.
Proof. induction s as [|a s IH]; simpl; [done | by rewrite IH]. Qed.

Lemma str_app_assoc (s t u : string) : (s +:+ t) +:+ u = s +:+ t +:+ u.
Proof. induction s as [|a s IH]; simpl; [done | by rewrite IH]. Qed.

Lemma all_chars_app p (s t : string) :
  all_chars p (s +:+ t) = all_chars p s && all_chars p t.
Proof.
  induction s as [|a s IH]; simpl; [done|].
  rewrite IH. by destruct (p a).
Qed.

Lemma any_char_app p (s t : string) :
  any_char p (s +:+ t) = any_char p s || any_char p t.
Proof.
  induction s as [|a s IH]; simpl; [done|].
  rewrite IH. by destruct (p a).
Qed.

Lemma all_chars_none p q (s : string) :
  (forall c, p c = true -> q c = false) ->
  all_chars p s = true -> any_char q s = false.
Proof.
  intros Hpq. induction s as [|a s IH]; simpl; [done|].
  intros [Ha Hs]%andb_true_iff. by rewrite (Hpq _ Ha), IH.
Qed.

Lemma ends_with_app c (s t : string) :
  t <> "" -> ends_with c (s +:+ t) = ends_with c t.
Proof.
  intros Ht. induction s as [|a s IH]; simpl; [done|].
  destruct (s +:+ t) eqn:E; [|done].
  destruct s; simpl in E; [by subst | done].
Qed.

(** a character that occurs once splits a string in one way only *)
Lemma split_at_unique c (u1 v1 u2 v2 : string) :
  u1 +:+ String c v1 = u2 +:+ String c v2 ->
  any_char (Ascii.eqb c) u2 = false ->
  any_char (Ascii.eqb c) v2 = false ->
  u1 = u2 /\ v1 = v2.
Proof.
  revert u2. induction u1 as [|a u1 IH]; intros [|b u2]; simpl; intros E Hu Hv.
  - by injection E.
  - injection E as -> _. by rewrite Ascii.eqb_refl in Hu.
  - injection E as -> <-. rewrite any_char_app in Hv. simpl in Hv.
    rewrite Ascii.eqb_refl in Hv. by destruct (any_char _ u1).
  - injection E as -> E. apply orb_false_iff in Hu as [_ Hu].
    destruct (IH _ E Hu Hv) as [-> ->]. done.
Qed.

End string_facts.

(** ** The matcher *)

Section matcher_facts.
Import PyStr Re.

Lemma more_spec cls rest (t : string) :
  more cls rest t = true <->
  exists u v, t = u +:+ v /\ all_chars cls u = true /\ matches rest false v = true.
Proof.
  induction t as [|b t IH]; simpl.
  - rewrite orb_false_r. split.
    + intros H. by exists "", "".
    + intros ([|??] & v & E & _ & Hv); simpl in E; [by subst | done].
  - rewrite orb_true_iff, andb_true_iff, IH. split.
    + intros [H | (Hb & u & v & -> & Hu & Hv)].
      * by exists "", (String b t).
      * exists (String b u), v. simpl. by rewrite Hb, Hu.
    + intros ([|a u] & v & E & Hu & Hv); simpl in *.
      * left. by subst.
      * right. injection E as <- ->. apply andb_true_iff in Hu as [Ha Hu].
        split; [done|]. by exists u, v.
Qed.

Lemma matches_class_plus cls rest start (s : string) :
  matches (ClassPlus cls :: rest) start s = true <->
  exists u v, s = u +:+ v /\ u <> "" /\ all_chars cls u = true
              /\ matches rest false v = true.
Proof.
  change (matches (ClassPlus cls :: rest) start s)
    with (match s with
          | String a s' => cls a && more cls rest s'
          | EmptyString => false
          end).
  destruct s as [|a s].
  - split; [done|]. intros ([|??] & v & E & Hne & _); done.
  - rewrite andb_true_iff, more_spec. split.
    + intros (Ha & u & v & -> & Hu & Hv).
      exists (String a u), v. simpl. by rewrite Ha, Hu.
    + intros ([|b u] & v & E & Hne & Hu & Hv); [done|]. simpl in *.
      injection E as <- ->. apply andb_true_iff in Hu as [Ha Hu].
      split; [done|]. by exists u, v.
Qed.

Lemma matches_lit c rest start (s : string) :
  matches (Lit c :: rest) start s = true <->
  exists v, s = String c v /\ matches rest false v = true.
Proof.
  simpl. destruct s as [|a s].
  - split; [done | by intros (? & ? & _)].
  - rewrite andb_true_iff, Ascii.eqb_eq. split.
    + intros [-> H]. by exists s.
    + intros (v & E & H). by injection E as -> ->.
Qed.

Lemma at_eol_spec (s : string) :
  at_eol s = true <-> s = "" \/ s = String "010"%char "".
Proof.
  destruct s as [|a [|b s]]; simpl.
  - split; [by left | done].
  - rewrite Ascii.eqb_eq. split.
    + intros ->. by right.
    + intros [E | E]; [done | by injection E].
  - split; [done | by intros [E | E]].
Qed.

End matcher_facts.

(** ** [is_valid_email] *)

Section is_valid_email_facts.
Import PyStr Re Email.

Lemma ends_with_snoc c (s : string) : ends_with c (s +:+ String c "") = true.
Proof. rewrite ends_with_app by done. simpl. apply Ascii.eqb_refl. Qed.

(** what [is_valid_email] accepts, on every string *)
Lemma is_valid_email_spec (s : string) :
  is_valid_email s = true <->
  local_first_rest s \/ exists s', s = s' +:+ newline /\ local_first_rest s'.
Proof.
  unfold is_valid_email, re_match, pattern.
  change (matches (Bol :: ?r) true s) with (true && matches r true s).
  rewrite andb_true_l. split.
  - intros H.
    apply matches_class_plus in H as (l & v1 & -> & Hl & Hlc & H).
    apply matches_lit in H as (v2 & -> & H).
    apply matches_class_plus in H as (first & v3 & -> & Hf & Hfc & H).
    apply matches_lit in H as (v4 & -> & H).
    apply matches_class_plus in H as (rest & v5 & -> & Hr & Hrc & H).
    simpl in H. rewrite andb_true_r in H.
    apply at_eol_spec in H as [-> | ->].
    + left. exists l, first, rest. by rewrite str_app_empty_r.
    + right. exists (l +:+ "@" +:+ first +:+ "." +:+ rest). split.
      * unfold newline. rewrite str_app_assoc. simpl. rewrite str_app_assoc. done.
      * by exists l, first, rest.
  - intros H.
    assert (exists l first rest eol : string,
              s = l +:+ "@" +:+ first +:+ "." +:+ rest +:+ eol
              /\ l <> "" /\ all_chars local_class l = true
              /\ first <> "" /\ all_chars label_class first = true
              /\ rest <> "" /\ all_chars tail_class rest = true
              /\ at_eol eol = true)
      as (l & first & rest & eol & -> & Hl & Hlc & Hf & Hfc & Hr & Hrc & He).
    { destruct H as [(l & first & rest & -> & H) | (s' & -> & l & first & rest & -> & H)].
      - exists l, first, rest, "". rewrite str_app_empty_r.
        destruct H as (? & ? & ? & ? & ? & ?). done.
      - exists l, first, rest, newline.
        destruct H as (? & ? & ? & ? & ? & ?). repeat split; try done.
        rewrite str_app_assoc. simpl. rewrite str_app_assoc. done. }
    apply matches_class_plus. exists l, ("@" +:+ first +:+ "." +:+ rest +:+ eol).
    repeat split; try done.
    apply matches_lit. eexists. split; [done|].
    apply matches_class_plus. exists first, ("." +:+ rest +:+ eol).
    repeat split; try done.
    apply matches_lit. eexists. split; [done|].
    apply matches_class_plus. exists rest, eol.
    repeat split; try done.
    simpl. by rewrite He.
Qed.

Lemma local_class_not_space c : local_class c = true -> is_space c = false.
Proof. destruct c as [[] [] [] [] [] [] [] []]; vm_compute; congruence. Qed.

Lemma tail_class_local c : tail_class c = true -> local_class c = true.
Proof. destruct c as [[] [] [] [] [] [] [] []]; vm_compute; congruence. Qed.

Lemma label_class_local c : label_class c = true -> local_class c = true.
Proof. destruct c as [[] [] [] [] [] [] [] []]; vm_compute; congruence. Qed.

Lemma local_class_not_at c :
  local_class c = true -> Ascii.eqb "@"%char c = false.
Proof. destruct c as [[] [] [] [] [] [] [] []]; vm_compute; congruence. Qed.

Lemma all_chars_weaken (p q : ascii -> bool) (s : string) :
  (forall c, p c = true -> q c = true) ->
  all_chars p s = true -> all_chars q s = true.
Proof.
  intros Hpq. induction s as [|a s IH]; simpl; [done|].
  intros [Ha Hs]%andb_true_iff. by rewrite (Hpq _ Ha), IH.
Qed.

Lemma local_first_rest_no_space (s : string) :
  local_first_rest s -> any_char is_space s = false.
Proof.
  intros (l & first & rest & -> & _ & Hl & _ & Hf & _ & Hr).
  apply (all_chars_weaken _ _ _ label_class_local) in Hf.
  apply (all_chars_weaken _ _ _ tail_class_local) in Hr.
  rewrite !any_char_app.
  rewrite (all_chars_none _ _ l local_class_not_space Hl),
    (all_chars_none _ _ first local_class_not_space Hf),
    (all_chars_none _ _ rest local_class_not_space Hr).
  reflexivity.
Qed.

Lemma local_first_rest_split (s l d : string) :
  local_first_rest s -> s = l +:+ "@" +:+ d ->
  exists first rest : string, d = first +:+ "." +:+ rest.
Proof.
  intros (l' & first & rest & -> & _ & Hl & _ & Hf & _ & Hr) E.
  apply (all_chars_weaken _ _ _ label_class_local) in Hf.
  apply (all_chars_weaken _ _ _ tail_class_local) in Hr.
  symmetry in E.
  apply (split_at_unique "@"%char l d l' (first +:+ "." +:+ rest))
    in E as [_ ->].
  - by exists first, rest.
  - by apply (all_chars_none local_class); [apply local_class_not_at|].
  - rewrite !any_char_app.
    rewrite (all_chars_none _ _ first local_class_not_at Hf),
      (all_chars_none _ _ rest local_class_not_at Hr).
    reflexivity.
Qed.

End is_valid_email_facts.

Section address_claims.
Import PyStr Re Email Spec.

(** C1, as the code has it: for every string [s] that does not end with a
    newline, [is_valid_email s] is true if and only if [s] is
    [local@first.rest] with a non-empty [local] of letters, digits and
    [. _ + -], a non-empty [first] of letters, digits and hyphens, and a
    non-empty [rest] of letters, digits, hyphens and dots; in particular such
    a string is rejected when it contains whitespace, when it has no [@], and
    when nothing after its [@] is a dot. *)
Theorem is_valid_email_local_first_rest (s : string)
    (Hnl : ends_with "010"%char s = false) :
  (is_valid_email s = true <-> local_first_rest s)
  /\ (any_char is_space s = true -> is_valid_email s = false)
  /\ (any_char (Ascii.eqb "@"%char) s = false -> is_valid_email s = false)
  /\ (forall l d : string,
        s = l +:+ "@" +:+ d -> any_char (Ascii.eqb "."%char) d = false ->
        is_valid_email s = false).
Proof.
  assert (is_valid_email s = true <-> local_first_rest s) as Hiff.
  { rewrite is_valid_email_spec. split; [|by left].
    intros [H | (s' & -> & _)]; [done|].
    unfold newline in Hnl. by rewrite ends_with_snoc in Hnl. }
  split; [done|]. repeat split.
  - intros Hsp. apply not_true_is_false. intros H%Hiff.
    apply local_first_rest_no_space in H. congruence.
  - intros Hat. apply not_true_is_false.
    intros (l & first & rest & -> & _)%Hiff.
    rewrite any_char_app in Hat. apply orb_false_iff in Hat as [_ Hat].
    done.
  - intros l d E Hdot. apply not_true_is_false. intros H%Hiff.
    destruct (local_first_rest_split _ _ _ H E) as (first & rest & ->).
    rewrite any_char_app in Hdot. apply orb_false_iff in Hdot as [_ Hdot].
    done.
Qed.

Lemma is_valid_email_local_first_rest_witness :
  ends_with "010"%char "a.b+c@example.co" = false
  /\ (is_valid_email "a.b+c@example.co" = true
      <-> local_first_rest "a.b+c@example.co").
Proof.
  split; [reflexivity|].
  exact (proj1 (is_valid_email_local_first_rest "a.b+c@example.co" eq_refl)).
Defined.

(** C1 as stated fails: a string that ends with a newline, which is
    whitespace and not of the shape [local-part@domain], is accepted, and so
    is an address whose domain has an empty label. *)
Lemma is_valid_email_accepts_outside_shape :
  (is_valid_email ("a@b.c" +:+ newline) = true
   /\ any_char is_space ("a@b.c" +:+ newline) = true
   /\ email_shape ("a@b.c" +:+ newline) = false)
  /\ (is_valid_email "a@b..c" = true /\ email_shape "a@b..c" = false).
Proof. vm_compute. repeat split. Qed.


End address_claims.

(** ** [send_via_gmail_ssl] *)

Section send_via_gmail_ssl_facts.
Import PyStr Py Os Main.

Lemma all_refused_forallb (f : string -> bool) (l : list string) :
  (length (filter (fun to => f to = false) l) =? length l)
  = forallb (fun to => negb (f to)) l.
Proof.
  induction l as [|a l IH]; [done|].
  rewrite filter_cons. simpl forallb. destruct (f a) eqn:Fa; simpl.
  - apply Nat.eqb_neq.
    pose proof (length_filter (fun to => f to = false) l). lia.
  - exact IH.
Qed.

Lemma connects_snoc (log : list smtp_event) (e : smtp_event) :
  connects (log ++ [e]) = connects log + (if is_connect e then 1 else 0).
Proof.
  unfold connects. rewrite List.filter_app, length_app. simpl.
  by destruct (is_connect e).
Qed.

(** [send_via_gmail_ssl] always returns: [None] or the text that classifies
    the failure of the one session it opens; the files and the page are
    left as they were. *)
Lemma send_via_gmail_ssl_returns sender app_password recipients msg (w : World) :
  exists w',
    send_via_gmail_ssl sender app_password recipients msg w
    = (Ok (session_outcome (relay w) sender app_password recipients), w')
    /\ connects (smtp_log w') = S (connects (smtp_log w))
    /\ fs w' = fs w /\ page w' = page w
    /\ undeletable w' = undeletable w /\ disk_free w' = disk_free w.
Proof.
  unfold send_via_gmail_ssl, session_outcome, try_except, try_finally, bind,
    SMTP_SSL, login, sendmail, smtp_exit, log_smtp, modify, ret, raise, bind.
  simpl. destruct (relay_connect_error (relay w)) as [text|]; simpl.
  { eexists. split; [done|]. simpl. rewrite connects_snoc. simpl.
    repeat split; lia. }
  destruct (relay_accepts_login (relay w) sender app_password); simpl.
  2: { eexists. split; [done|]. simpl. rewrite !connects_snoc. simpl.
       repeat split; lia. }
  rewrite all_refused_forallb.
  destruct (forallb _ recipients); simpl.
  { eexists. split; [done|]. simpl. rewrite !connects_snoc. simpl.
    repeat split; lia. }
  destruct (relay_data_error (relay w)) as [text|]; simpl.
  all: eexists; (split; [done|]); simpl; rewrite !connects_snoc; simpl;
    repeat split; lia.
Qed.

End send_via_gmail_ssl_facts.

(** C9, at a relay that refuses one of two recipients: [sendmail] returns
    the refused recipient instead of raising, the function discards that
    result, and the caller gets [None] as for a delivered message; the
    handler then reports success. *)
Theorem send_via_gmail_ssl_one_of_two_refused :
  relay_accepts_rcpt Demo.relay_refusing_b "a@x.com" = true
  /\ relay_accepts_rcpt Demo.relay_refusing_b "b@x.com" = false
  /\ fst (Main.send_via_gmail_ssl "me@gmail.com" "app-password"
            ["a@x.com"; "b@x.com"] Demo.msg0
            (Demo.world0 Demo.relay_refusing_b))
     = Ok None
  /\ page (snd (Main.send_handler Demo.cfg0 "a@x.com, b@x.com" "Hello" "Hi" []
                  (Demo.world0 Demo.relay_refusing_b)))
     = [StSuccess "Email sent successfully."].
Proof. vm_compute. repeat split. Qed.

(** ** [build_message] *)

Section build_message_facts.
Import PyStr Py Os Main.

Lemma attach_loop_spec (paths : list string) (parts : list Attachment)
    (w : World) :
  (forall p, p ∈ paths -> is_Some (fs w !! p) -> p ∉ unreadable w) ->
  attach_loop paths parts w = (Ok (parts ++ attachments_of w paths), w).
Proof.
  revert parts. induction paths as [|p paths IH]; intros parts Hr.
  - simpl. unfold ret. by rewrite app_nil_r.
  - simpl. unfold bind at 1, os_path_isfile, path_exists.
    unfold attachments_of. simpl omap.
    destruct (fs w !! p) as [content|] eqn:E; simpl.
    + unfold bind at 1, read_file.
      rewrite bool_decide_eq_false_2, E.
      2: { apply Hr; [left | by rewrite E]. }
      rewrite IH.
      * by rewrite <- List.app_assoc.
      * intros q Hq. apply Hr. by right.
    + apply IH. intros q Hq. apply Hr. by right.
Qed.

Lemma attachments_of_missing (w : World) (paths : list string) :
  (forall p, p ∈ paths -> fs w !! p = None) -> attachments_of w paths = [].
Proof.
  unfold attachments_of. induction paths as [|p paths IH]; intros H; [done|].
  simpl. rewrite (H p) by left. simpl. apply IH.
  intros q Hq. apply H. by right.
Qed.

(** C7: the message built has the placeholder as subject when [subject] is
    empty and [subject] otherwise, the recipients joined with commas in its
    [To] header, and one attachment for each path that exists, in order;
    paths that do not exist are skipped, and when none exists the message
    has no attachment and nothing is raised. *)
Theorem build_message_subject_to_attachments (sender : string)
    (recipients : list string) (subject body : string)
    (paths : list string) (w : World)
    (Hreadable : forall p, p ∈ paths -> is_Some (fs w !! p) -> p ∉ unreadable w) :
  exists msg w',
    build_message sender recipients subject body paths w = (Ok msg, w')
    /\ msg_subject msg = (if decide (subject = "") then "No Subject" else subject)
    /\ msg_to msg = join ", " recipients
    /\ msg_from msg = sender /\ msg_text msg = body
    /\ msg_attachments msg = attachments_of w paths
    /\ ((forall p, p ∈ paths -> fs w !! p = None) -> msg_attachments msg = [])
    /\ w' = w.
Proof.
  unfold build_message, bind.
  rewrite (attach_loop_spec paths [] w Hreadable).
  unfold ret. do 2 eexists. split; [reflexivity|]. simpl.
  repeat split; try done.
  - by destruct subject.
  - exact (attachments_of_missing w paths).
Qed.

Lemma build_message_subject_to_attachments_witness :
  exists msg w',
    build_message "me@gmail.com" ["a@x.com"; "b@x.com"] "" "Hi"
      ["/tmp/gone1.pdf"; "/tmp/gone2.txt"] (Demo.world0 Demo.relay_accepting)
    = (Ok msg, w')
    /\ msg_subject msg = "No Subject"
    /\ msg_to msg = "a@x.com, b@x.com"
    /\ msg_attachments msg = [].
Proof.
  destruct (build_message_subject_to_attachments "me@gmail.com"
              ["a@x.com"; "b@x.com"] "" "Hi"
              ["/tmp/gone1.pdf"; "/tmp/gone2.txt"]
              (Demo.world0 Demo.relay_accepting))
    as (msg & w' & E & Hs & Ht & _ & _ & _ & Ha & _).
  - intros p _ [? H]. simpl in H. by rewrite lookup_empty in H.
  - exists msg, w'. repeat split; try done.
    apply Ha. intros p _. apply lookup_empty.
Defined.

End build_message_facts.

(** ** The send handler: validation *)

Section validation_facts.
Import PyStr Py Os Email Main.

Lemma rstrip_empty (s : string) :
  rstrip s = "" -> all_chars is_space s = true.
Proof.
  induction s as [|c s IH]; simpl; [done|].
  destruct (is_space c); simpl; [|done].
  destruct (rstrip s); simpl; [auto | done].
Qed.

Lemma lstrip_all_space (s : string) :
  all_chars is_space (lstrip s) = true -> all_chars is_space s = true.
Proof.
  induction s as [|c s IH]; simpl; [done|].
  destruct (is_space c) eqn:E; simpl; [done|].
  by rewrite E.
Qed.

Lemma strip_empty (s : string) :
  strip s = "" -> all_chars is_space s = true.
Proof. intros H. by apply lstrip_all_space, rstrip_empty. Qed.

Lemma space_not_comma c : is_space c = true -> Ascii.eqb c ","%char = false.
Proof.
  intros H. destruct (Ascii.eqb_spec c ","%char) as [->|]; [|done].
  vm_compute in H. done.
Qed.

Lemma split_all_space (s : string) :
  all_chars is_space s = true -> split ","%char s = [s].
Proof.
  induction s as [|c s IH]; simpl; [done|].
  intros [Hc Hs]%andb_true_iff.
  by rewrite (space_not_comma _ Hc), (IH Hs).
Qed.

(** a blank recipients field has no recipient *)
Lemma normalize_recipients_blank (raw : string) :
  truthy (strip raw) = false -> normalize_recipients raw = [].
Proof.
  intros H. unfold normalize_recipients.
  assert (strip raw = "") as E by (by destruct (strip raw)).
  rewrite (split_all_space _ (strip_empty _ E)).
  rewrite filter_cons, decide_False; [done|].
  by rewrite H.
Qed.

(** C3: when a normalised recipient fails [is_valid_email], the handler
    shows the error that lists the failing addresses, in order, and does
    nothing else: no call to the staging, building or sending function, no
    file created, no session opened. *)
Theorem send_handler_invalid_recipients (cfg : Config)
    (recipients_raw s_subject s_body : string)
    (more_files : list UploadedFile) (w : World)
    (Hinvalid : invalid_emails (normalize_recipients recipients_raw) <> []) :
  exists w',
    send_handler cfg recipients_raw s_subject s_body more_files w = (Ok tt, w')
    /\ page w' = page w ++
         [StError ("Invalid email addresses: " +:+
                   join ", " (filter (fun r => is_valid_email r = false)
                                (normalize_recipients recipients_raw)))]
    /\ call_log w' = call_log w
    /\ fs w' = fs w
    /\ tmp_candidates w' = tmp_candidates w
    /\ smtp_log w' = smtp_log w.
Proof.
  unfold send_handler.
  destruct (truthy (strip recipients_raw)) eqn:E; simpl.
  - destruct (invalid_emails (normalize_recipients recipients_raw)) eqn:Ei;
      [done|]. simpl.
    eexists. split; [reflexivity|]. unfold invalid_emails in Ei.
    by rewrite Ei.
  - by rewrite (normalize_recipients_blank _ E) in Hinvalid.
Qed.

Lemma send_handler_invalid_recipients_witness :
  exists w',
    send_handler Demo.cfg0 "a@x.com, not-an-email" "S" "B" []
      (Demo.world0 Demo.relay_accepting) = (Ok tt, w')
    /\ page w' = [StError "Invalid email addresses: not-an-email"]
    /\ call_log w' = [] /\ fs w' = ∅ /\ smtp_log w' = [].
Proof.
  destruct (send_handler_invalid_recipients Demo.cfg0 "a@x.com, not-an-email"
              "S" "B" [] (Demo.world0 Demo.relay_accepting))
    as (w' & E & Hp & Hc & Hf & _ & Hs).
  - vm_compute. discriminate.
  - exists w'. repeat split; try done.
Defined.

(** when the trimmed field is empty the handler asks for a recipient and
    does nothing else *)
Lemma send_handler_blank (cfg : Config) (recipients_raw s_subject s_body : string)
    (more_files : list UploadedFile) (w : World) :
  strip recipients_raw = "" ->
  send_handler cfg recipients_raw s_subject s_body more_files w
  = (Ok tt, with_page (fun p => p ++ [StError "Please enter at least one recipient."]) w).
Proof. intros E. unfold send_handler. by rewrite E. Qed.

End validation_facts.

(** C2, at the input [","]: the trimmed field is not empty, so the guard
    of the handler lets it pass although it holds no recipient; the handler
    stages the upload, builds the message and opens a session with the
    relay, and what it shows is the relay's refusal, not the request for a
    recipient. *)
Theorem send_handler_comma_only :
  Email.normalize_recipients "," = []
  /\ (let run := Main.send_handler Demo.cfg0 "," "S" "B" [Demo.note_txt]
                   (Demo.world0 Demo.relay_accepting) in
      fst run = Ok tt
      /\ call_log (snd run)
         = [CallSave [Demo.note_txt];
            CallBuild [] ["/tmp/stmail_k3v9x0aa.txt"];
            CallSend []]
      /\ Main.connects (smtp_log (snd run)) = 1
      /\ page (snd run) = [StError Main.recipients_refused_text]).
Proof. vm_compute. repeat split. Qed.

(** ** The defaults: save, then load *)

Section defaults_facts.
Import PyStr Py Os Mongo.

Lemma set_fields_user subject body meta (d : gmap string value) :
  set_fields (saved_fields subject body meta) d !! "user" = d !! "user".
Proof. unfold set_fields. simpl. by rewrite !lookup_insert_ne. Qed.

Lemma set_fields_get subject body meta (d : gmap string value) :
  let d' := set_fields (saved_fields subject body meta) d in
  doc_get d' "subject" (VStr "") = VStr subject
  /\ doc_get d' "body" (VStr "") = VStr body
  /\ doc_get d' "file_metadata" (VMeta []) = VMeta meta
  /\ d' <> ∅.
Proof.
  unfold set_fields, doc_get. simpl. repeat split.
  - do 2 (rewrite lookup_insert_ne by done). by rewrite lookup_insert_eq.
  - rewrite lookup_insert_ne by done. by rewrite lookup_insert_eq.
  - by rewrite lookup_insert_eq.
  - apply insert_non_empty.
Qed.

Lemma is_owned_by_set_fields owner subject body meta (d : gmap string value) :
  is_owned_by owner (set_fields (saved_fields subject body meta) d)
  = is_owned_by owner d.
Proof. unfold is_owned_by. by rewrite set_fields_user. Qed.

(** after the upsert, the first document of the owner carries the fields *)
Lemma find_one_update_one_upsert owner subject body meta
    (coll : list (gmap string value)) :
  exists d,
    find_one owner
      (update_one_upsert owner (saved_fields subject body meta) coll)
    = Some (set_fields (saved_fields subject body meta) d).
Proof.
  unfold find_one. induction coll as [|d0 coll IH];
    cbn [update_one_upsert].
  - exists {["user" := VStr owner]}. cbn [List.find].
    rewrite is_owned_by_set_fields. unfold is_owned_by.
    by rewrite lookup_singleton_eq, bool_decide_eq_true_2.
  - destruct (is_owned_by owner d0) eqn:E; cbn [List.find].
    + exists d0. by rewrite is_owned_by_set_fields, E.
    + by rewrite E.
Qed.

(** C10: once [subject], [body] and [meta] have been saved for the owner,
    loading the defaults of that owner puts [subject], [body] and [meta] in
    the session, whether or not the collection had a document of the owner
    before; the save handler saves the names and sizes of its uploads. *)
Theorem save_then_load_defaults (cfg : Config) (subject body : string)
    (meta : list FileMeta) (d_files : list UploadedFile) (w : World)
    (Hup : mongo_up w = true) :
  (let w1 := snd (save_defaults_to_mongo cfg subject body meta w) in
   let w2 := snd (load_defaults_from_mongo cfg w1) in
   default_subject (session w2) = VStr subject
   /\ default_body (session w2) = VStr body
   /\ default_file_metadata (session w2) = VMeta meta)
  /\ (let w1 := snd (save_defaults_handler cfg subject body d_files w) in
      let w2 := snd (load_defaults_from_mongo cfg w1) in
      default_subject (session w2) = VStr subject
      /\ default_body (session w2) = VStr body
      /\ default_file_metadata (session w2)
         = VMeta (file_metadata_of d_files)).
Proof.
  assert (forall meta' w0, mongo_up w0 = true ->
            let w1 := snd (save_defaults_to_mongo cfg subject body meta' w0) in
            let w2 := snd (load_defaults_from_mongo cfg w1) in
            default_subject (session w2) = VStr subject
            /\ default_body (session w2) = VStr body
            /\ default_file_metadata (session w2) = VMeta meta') as Hcore.
  { intros meta' w0 Hup0.
    unfold save_defaults_to_mongo, load_defaults_from_mongo, try_except, bind,
      mongo_call, st_success, st_error, modify.
    rewrite Hup0.
    cbn -[find_one update_one_upsert set_fields saved_fields String.append].
    rewrite Hup0.
    cbn -[find_one update_one_upsert set_fields saved_fields String.append].
    destruct (find_one_update_one_upsert (GMAIL_USER cfg) subject body meta'
                (defaults_collection w0)) as [d ->].
    destruct (set_fields_get subject body meta' d) as (Hs & Hb & Hm & Hne).
    rewrite bool_decide_eq_false_2 by done.
    cbn -[set_fields saved_fields]. by rewrite Hs, Hb, Hm. }
  split.
  - by apply Hcore.
  - unfold save_defaults_handler, bind at 1, modify at 1. simpl.
    by apply Hcore.
Qed.

Lemma save_then_load_defaults_witness :
  let w := Demo.world0 Demo.relay_accepting in
  let w1 := snd (save_defaults_handler Demo.cfg0 "S" "B" [Demo.note_txt] w) in
  let w2 := snd (load_defaults_from_mongo Demo.cfg0 w1) in
  default_subject (session w2) = VStr "S"
  /\ default_body (session w2) = VStr "B"
  /\ default_file_metadata (session w2)
     = VMeta [{| fm_name := "note.txt"; fm_size := 2 |}].
Proof.
  exact (proj2 (save_then_load_defaults Demo.cfg0 "S" "B" [] [Demo.note_txt]
                  (Demo.world0 Demo.relay_accepting) eq_refl)).
Defined.

End defaults_facts.

(** ** [save_uploaded_files_to_tmp] *)

Section staging_facts.
Import PyStr Py Os Main.

Lemma draw_name_spec (m : gmap string (list Byte.byte))
    (dir prefix suffix : string) (names rest : list string) (path : string) :
  draw_name m dir prefix suffix names = Some (path, rest) ->
  m !! path = None
  /\ (exists name, name ∈ names /\ path = tmp_path dir prefix name suffix)
  /\ (forall x, x ∈ rest -> x ∈ names).
Proof.
  induction names as [|name names IH]; simpl; [done|].
  destruct (m !! tmp_path dir prefix name suffix) eqn:E.
  - intros H. destruct (IH H) as (Hm & (n & Hn & Hp) & Hsub).
    split; [done|]. split.
    + exists n. split; [by right | done].
    + intros x Hx. right. by apply Hsub.
  - intros [= <- <-]. split; [done|]. split.
    + exists name. split; [left | done].
    + intros x Hx. by right.
Qed.

Lemma within_cap_ltb (f : UploadedFile) :
  (max_size <? uf_size f)%Z = negb (within_cap f).
Proof. unfold within_cap. apply Z.ltb_antisym. Qed.

(** one turn of the loop that returns: a warning for a file over the cap, a
    new temporary file otherwise *)
Lemma stage_file_ok (f : UploadedFile) (paths paths' : list string)
    (w w' : World) :
  stage_file f paths w = (Ok paths', w') ->
  (within_cap f = false /\ paths' = paths
   /\ w' = with_page (fun p => p ++ [StWarning (too_large_warning f)]) w)
  \/ (within_cap f = true
      /\ exists path, paths' = paths ++ [path]
         /\ staged_as w w' path f
         /\ fs w' = <[path := uf_content f]> (fs w)
         /\ page w' = page w /\ tmp_dir w' = tmp_dir w
         /\ undeletable w' = undeletable w
         /\ (forall x, x ∈ tmp_candidates w' -> x ∈ tmp_candidates w)).
Proof.
  unfold stage_file. rewrite within_cap_ltb.
  destruct (within_cap f); simpl.
  - unfold bind, NamedTemporaryFile.
    destruct (draw_name _ _ _ _ _) as [[path rest]|] eqn:E; [|done].
    destruct (draw_name_spec _ _ _ _ _ _ _ E) as (Hnew & (name & Hn & Hp) & Hsub).
    unfold tmp_write. simpl.
    destruct (length (uf_content f) <=? disk_free w); [|done].
    intros [= <- <-]. right. split; [done|]. exists path. simpl.
    rewrite insert_insert_eq. repeat split; try done.
    + apply lookup_insert_eq.
    + by exists name.
  - intros [= <- <-]. by left.
Qed.

Lemma stage_loop_ok (files : list UploadedFile) :
  forall (acc paths : list string) (w w' : World),
    stage_loop files acc w = (Ok paths, w') ->
    exists new,
      paths = acc ++ new
      /\ Forall2 (staged_as w w') new (List.filter within_cap files)
      /\ NoDup new
      /\ page w' = page w ++
           map (fun f => StWarning (too_large_warning f))
             (List.filter (fun f => negb (within_cap f)) files)
      /\ (forall q, q ∉ new -> fs w' !! q = fs w !! q)
      /\ tmp_dir w' = tmp_dir w
      /\ undeletable w' = undeletable w
      /\ (forall x, x ∈ tmp_candidates w' -> x ∈ tmp_candidates w).
Proof.
  induction files as [|f files IH]; intros acc paths w w'.
  - intros [= <- <-]. exists []. rewrite app_nil_r. simpl.
    repeat split; try done.
    + constructor.
    + by rewrite app_nil_r.
  - cbn [stage_loop]. unfold bind at 1.
    destruct (stage_file f acc w) as [[acc1|e] w1] eqn:E1; [|done].
    intros Hrest.
    destruct (IH _ _ _ _ Hrest)
      as (new & -> & Hst & Hnd & Hpage & Hfs & Hdir & Hund & Hsub).
    apply stage_file_ok in E1
        as [(Hcap & -> & ->) | (Hcap & path & -> & Hp & Hfs1 & Hpage1 & Hdir1 & Hund1 & Hsub1)].
    + exists new. cbn [List.filter]. rewrite Hcap. simpl negb. cbn iota.
      repeat split; try done.
      rewrite Hpage. simpl. by rewrite <- List.app_assoc.
    + assert (forall q, q ∈ new -> fs w1 !! q = None) as Hnew1.
      { intros q Hq. apply list_elem_of_lookup in Hq as [i Hi].
        destruct (Forall2_lookup_l _ _ _ _ _ Hst Hi) as (g & _ & Hq & _).
        done. }
      assert (path ∉ new) as Hnotin.
      { intros Hin. apply Hnew1 in Hin. rewrite Hfs1, lookup_insert_eq in Hin.
        done. }
      exists (path :: new). cbn [List.filter]. rewrite Hcap. simpl negb. cbn iota.
      split; [by rewrite <- List.app_assoc|].
      split.
      { constructor.
        - destruct Hp as (Hp1 & Hp2 & Hp3). split; [done|]. split; [|done].
          rewrite (Hfs _ Hnotin). done.
        - eapply Forall2_impl; [exact Hst|].
          intros q g (Hq1 & Hq2 & name & Hn & Hq3). split; [|split; [done|]].
          + rewrite Hfs1 in Hq1.
            destruct (decide (path = q)) as [->|Hne].
            * by rewrite lookup_insert_eq in Hq1.
            * by rewrite lookup_insert_ne in Hq1.
          + exists name. rewrite <- Hdir1. split; [by apply Hsub1 | done]. }
      split; [by constructor|].
      split; [by rewrite Hpage, Hpage1|].
      split.
      { intros q Hq. apply not_elem_of_cons in Hq as [Hq1 Hq2].
        rewrite (Hfs _ Hq2), Hfs1. by rewrite lookup_insert_ne. }
      split; [by rewrite Hdir|].
      split; [by rewrite Hund|].
      intros x Hx. by apply Hsub1, Hsub.
Qed.

Lemma filter_lengths {A} (p : A -> bool) (l : list A) :
  length (List.filter p l) + length (List.filter (fun x => negb (p x)) l)
  = length l.
Proof.
  induction l as [|a l IH]; [done|]. simpl.
  destruct (p a); simpl; lia.
Qed.

Lemma stage_file_oversized (f : UploadedFile) (paths : list string) (w : World) :
  within_cap f = false ->
  stage_file f paths w
  = (Ok paths, with_page (fun p => p ++ [StWarning (too_large_warning f)]) w).
Proof. intros H. unfold stage_file. by rewrite within_cap_ltb, H. Qed.

Lemma stage_file_within (f : UploadedFile) (paths : list string) (w : World)
    (name : string) (names : list string) :
  let path := tmp_path (tmp_dir w) "stmail_" name (snd (splitext (uf_name f))) in
  within_cap f = true ->
  tmp_candidates w = name :: names ->
  fs w !! path = None ->
  length (uf_content f) <= disk_free w ->
  stage_file f paths w = (Ok (paths ++ [path]), after_staging f path names w).
Proof.
  intros path Hcap Ec Hnew Hdisk. unfold stage_file.
  rewrite within_cap_ltb, Hcap. cbn [negb].
  unfold bind at 1, NamedTemporaryFile. rewrite Ec. cbn [draw_name].
  fold path. rewrite Hnew.
  unfold bind at 1, tmp_write.
  cbn [disk_free with_fs with_tmp_candidates].
  by rewrite (proj2 (Nat.leb_le _ _) Hdisk).
Qed.

(** the call returns when the names drawn do not collide and the disk has
    room for the files under the cap *)
Lemma stage_loop_returns (files : list UploadedFile) :
  forall (acc : list string) (w : World),
    let staged := List.filter within_cap files in
    length staged <= length (tmp_candidates w) ->
    NoDup (drawn_paths w staged) ->
    Forall (fun p => fs w !! p = None) (drawn_paths w staged) ->
    total_bytes staged <= disk_free w ->
    exists w', stage_loop files acc w = (Ok (acc ++ drawn_paths w staged), w').
Proof.
  induction files as [|f files IH]; intros acc w; cbn zeta.
  - intros _ _ _ _. exists w. simpl. unfold drawn_paths.
    destruct (tmp_candidates w); simpl; by rewrite app_nil_r.
  - cbn [List.filter stage_loop]. unfold bind at 1.
    destruct (within_cap f) eqn:Hcap.
    + unfold drawn_paths at 1 2 3, total_bytes.
      destruct (tmp_candidates w) as [|name names] eqn:Ec; [simpl; lia|].
      cbn [zip_with map sum_list length].
      intros Hlen Hnd Hfresh Hdisk. unfold id in Hdisk.
      apply NoDup_cons in Hnd as [Hnotin Hnd].
      apply Forall_cons in Hfresh as [Hnew Hfresh].
      rewrite (stage_file_within f acc w name names Hcap Ec Hnew) by lia.
      set (path := tmp_path (tmp_dir w) "stmail_" name (snd (splitext (uf_name f)))) in *.
      destruct (IH (acc ++ [path]) (after_staging f path names w)) as [w' Hw'].
      * simpl. lia.
      * exact Hnd.
      * apply Forall_forall. intros p Hp.
        rewrite Forall_forall in Hfresh. simpl.
        rewrite !lookup_insert_ne; [by apply Hfresh | |]; intros ->; done.
      * simpl. unfold total_bytes. lia.
      * exists w'. rewrite Hw'. unfold drawn_paths. simpl.
        by rewrite <- List.app_assoc.
    + intros Hlen Hnd Hfresh Hdisk.
      rewrite (stage_file_oversized f acc w Hcap).
      apply (IH acc (with_page _ w)); done.
Qed.

(** C5: when [save_uploaded_files_to_tmp] returns, it returns one path for
    each file whose size is at most [10 * 1024 * 1024], in the order of the
    input; each path is a new, distinct temporary file, named with the
    extension of the upload and holding its content; each larger file is
    skipped with one warning that names it, so that the paths and the
    warnings together count the files. *)
Theorem save_uploaded_files_to_tmp_within_cap (files : list UploadedFile)
    (w w' : World) (paths : list string)
    (Hok : save_uploaded_files_to_tmp files w = (Ok paths, w')) :
  let staged := List.filter (fun f => (uf_size f <=? 10 * 1024 * 1024)%Z) files in
  let oversized :=
    List.filter (fun f => negb (uf_size f <=? 10 * 1024 * 1024)%Z) files in
  Forall2 (staged_as w w') paths staged
  /\ NoDup paths
  /\ page w' = page w ++ map (fun f => StWarning (too_large_warning f)) oversized
  /\ length paths + length oversized = length files
  /\ (length oversized = 1 -> length paths = length files - 1)
  /\ (forall q, q ∉ paths -> fs w' !! q = fs w !! q).
Proof.
  destruct (stage_loop_ok _ _ _ _ _ Hok)
    as (new & -> & Hst & Hnd & Hpage & Hfs & _).
  simpl. change (fun f => (uf_size f <=? 10485760)%Z) with within_cap.
  change (fun f => negb (uf_size f <=? 10485760)%Z)
    with (fun f => negb (within_cap f)).
  pose proof (filter_lengths within_cap files) as Hlen.
  rewrite <- (Forall2_length _ _ _ Hst) in Hlen.
  split; [exact Hst|]. split; [exact Hnd|]. split; [exact Hpage|].
  split; [exact Hlen|]. split; [|exact Hfs].
  intros H1.
  change (length (List.filter (fun f => negb (within_cap f)) files) = 1) in H1.
  rewrite H1 in Hlen. lia.
Qed.

Lemma save_uploaded_files_to_tmp_within_cap_witness :
  let files := [Demo.note_txt; Demo.big_bin; Demo.photo_png] in
  let w := Demo.world0 Demo.relay_accepting in
  let run := save_uploaded_files_to_tmp files w in
  let paths := ["/tmp/stmail_k3v9x0aa.txt"; "/tmp/stmail_q1w2e3r4.png"] in
  fst run = Ok paths
  /\ Forall2 (staged_as w (snd run)) paths [Demo.note_txt; Demo.photo_png]
  /\ NoDup paths
  /\ page (snd run)
     = [StWarning "File 'big.bin' exceeds 10MB and will be skipped."]
  /\ length paths = 3 - 1.
Proof.
  intros files w run paths.
  assert (run = (Ok paths, snd run)) as Hok by (vm_compute; reflexivity).
  destruct (save_uploaded_files_to_tmp_within_cap files w (snd run) paths Hok)
    as (Hst & Hnd & Hpage & _ & Hlen & _).
  split; [by rewrite Hok|]. split; [exact Hst|]. split; [exact Hnd|].
  split; [exact Hpage|]. apply Hlen. reflexivity.
Defined.

Lemma stage_loop_app (l1 l2 : list UploadedFile) :
  forall (acc : list string) (w : World),
    stage_loop (l1 ++ l2) acc w
    = match stage_loop l1 acc w with
      | (Ok acc', w') => stage_loop l2 acc' w'
      | (Raise e, w') => (Raise e, w')
      end.
Proof.
  induction l1 as [|f l1 IH]; intros acc w; [done|].
  cbn [app stage_loop]. unfold bind.
  destruct (stage_file f acc w) as [[acc1|e] w1]; [apply IH | done].
Qed.

(** C6, as the code has it: a failure while staging one file ends the call.
    When the files before [f] have been staged and staging [f] raises, the
    call raises the same exception from the world of the failure, whatever
    files follow [f]: they are not staged, and no path is returned. *)
Theorem save_uploaded_files_to_tmp_aborts (pre post : list UploadedFile)
    (f : UploadedFile) (w w1 w2 : World) (paths : list string) (e : exn)
    (Hpre : save_uploaded_files_to_tmp pre w = (Ok paths, w1))
    (Hf : stage_file f paths w1 = (Raise e, w2)) :
  save_uploaded_files_to_tmp (pre ++ f :: post) w = (Raise e, w2).
Proof.
  unfold save_uploaded_files_to_tmp in *.
  rewrite stage_loop_app, Hpre. cbn [stage_loop]. unfold bind.
  by rewrite Hf.
Qed.

Lemma save_uploaded_files_to_tmp_aborts_witness :
  let w := Demo.world_with_room 4 in
  exists w2,
    save_uploaded_files_to_tmp
      ([Demo.note_txt] ++ Demo.photo_png :: [Demo.note_txt]) w
    = (Raise (OSError "No space left on device"), w2)
    /\ tmp_candidates w2 = ["zz8y7x6w"].
Proof.
  intros w.
  set (w1 := snd (save_uploaded_files_to_tmp [Demo.note_txt] w)).
  set (w2 := snd (stage_file Demo.photo_png ["/tmp/stmail_k3v9x0aa.txt"] w1)).
  exists w2. split; [|reflexivity].
  apply (save_uploaded_files_to_tmp_aborts [Demo.note_txt] [Demo.note_txt]
           Demo.photo_png w w1 w2 ["/tmp/stmail_k3v9x0aa.txt"]).
  - vm_compute. reflexivity.
  - vm_compute. reflexivity.
Defined.

(** C6 as stated fails: with room for two bytes, staging [photo.png] (three
    bytes) raises and ends the call; [note.txt] (two bytes), which the same
    world stages when it comes alone, is not staged, and no path is
    returned. *)
Lemma save_uploaded_files_to_tmp_failure_stops_batch :
  let w := Demo.world_with_room 2 in
  let run := save_uploaded_files_to_tmp [Demo.photo_png; Demo.note_txt] w in
  fst run = Raise (OSError "No space left on device")
  /\ fs (snd run) = {["/tmp/stmail_k3v9x0aa.png" := []]}
  /\ tmp_candidates (snd run) = ["q1w2e3r4"; "zz8y7x6w"]
  /\ fst (save_uploaded_files_to_tmp [Demo.note_txt] w)
     = Ok ["/tmp/stmail_k3v9x0aa.txt"].
Proof. vm_compute. repeat split. Qed.

End staging_facts.

(** ** What the operations leave alone *)

Create HintDb frame.

Section frame_facts.
Import PyStr Py Os Main.
Context {S B : Type} (proj : S -> B).

Lemma keeps_ret {A} (a : A) : keeps proj (ret a).
Proof. done. Qed.

Lemma keeps_raise {A} (e : exn) : keeps proj (@raise S A e).
Proof. done. Qed.

Lemma keeps_get : keeps proj get.
Proof. done. Qed.

Lemma keeps_bind {A C} (m : M S A) (k : A -> M S C) :
  keeps proj m -> (forall a, keeps proj (k a)) -> keeps proj (bind m k).
Proof.
  intros Hm Hk s. unfold bind. specialize (Hm s).
  destruct (m s) as [[a|e] s1]; simpl in *; [|done].
  by rewrite Hk.
Qed.

Lemma keeps_try_except {A} (m : M S A) (h : exn -> M S A) :
  keeps proj m -> (forall e, keeps proj (h e)) -> keeps proj (try_except m h).
Proof.
  intros Hm Hh s. unfold try_except. specialize (Hm s).
  destruct (m s) as [[a|e] s1]; simpl in *; [done|].
  by rewrite Hh.
Qed.

Lemma keeps_try_finally {A} (m : M S A) (f : M S unit) :
  keeps proj m -> keeps proj f -> keeps proj (try_finally m f).
Proof.
  intros Hm Hf s. unfold try_finally. specialize (Hm s).
  destruct (m s) as [r s1]. specialize (Hf s1).
  destruct (f s1) as [[[]|e] s2]; simpl in *; congruence.
Qed.

Lemma keeps_if {A} (b : bool) (m1 m2 : M S A) :
  keeps proj m1 -> keeps proj m2 -> keeps proj (if b then m1 else m2).
Proof. by destruct b. Qed.

Lemma keeps_lift {L A} (m : M S A) :
  keeps proj m -> keeps (fun ls : L * S => proj (snd ls)) (lift m).
Proof.
  intros Hm [l s]. unfold lift. simpl. specialize (Hm s).
  by destruct (m s).
Qed.

End frame_facts.

#[local] Hint Resolve keeps_ret keeps_raise keeps_get keeps_bind
  keeps_try_except keeps_try_finally keeps_if keeps_lift : frame.

(** ** The paths that cannot be deleted are the same all along *)

Section undeletable_facts.
Import PyStr Py Os Main.

Ltac by_cases :=
  intros w; cbv beta delta [NamedTemporaryFile tmp_write read_file os_remove];
  repeat match goal with
  | |- context [match ?x with _ => _ end] => destruct x
  end; reflexivity.

Lemma keeps_modify_page f : keeps undeletable (modify (with_page f)).
Proof. done. Qed.
Lemma keeps_log_call c : keeps undeletable (log_call c).
Proof. done. Qed.
Lemma keeps_log_smtp e : keeps undeletable (log_smtp e).
Proof. done. Qed.
Lemma keeps_os_path_exists p : keeps undeletable (os_path_exists p).
Proof. done. Qed.
Lemma keeps_os_path_isfile p : keeps undeletable (os_path_isfile p).
Proof. done. Qed.
Lemma keeps_NamedTemporaryFile prefix suffix :
  keeps undeletable (NamedTemporaryFile prefix suffix).
Proof. by_cases. Qed.
Lemma keeps_tmp_write path buffer : keeps undeletable (tmp_write path buffer).
Proof. by_cases. Qed.
Lemma keeps_read_file path : keeps undeletable (read_file path).
Proof. by_cases. Qed.
Lemma keeps_os_remove p : keeps undeletable (os_remove p).
Proof. by_cases. Qed.

#[local] Hint Resolve keeps_modify_page keeps_log_call keeps_log_smtp
  keeps_os_path_exists keeps_os_path_isfile keeps_NamedTemporaryFile
  keeps_tmp_write keeps_read_file keeps_os_remove : frame.

Lemma keeps_stage_file f paths : keeps undeletable (stage_file f paths).
Proof.
  unfold stage_file, st_warning. destruct (max_size <? uf_size f)%Z;
    eauto 10 with frame.
Qed.

Lemma keeps_stage_loop files : forall paths, keeps undeletable (stage_loop files paths).
Proof.
  induction files as [|f files IH]; intros paths; cbn [stage_loop];
    eauto using keeps_stage_file with frame.
Qed.

Lemma keeps_attach_loop paths :
  forall parts, keeps undeletable (attach_loop paths parts).
Proof.
  induction paths as [|p paths IH]; intros parts; cbn [attach_loop];
    [eauto with frame|].
  apply keeps_bind; [eauto with frame|]. intros isfile.
  destruct isfile; simpl; eauto with frame.
Qed.

Lemma keeps_build_message sender recipients subject body paths :
  keeps undeletable (build_message sender recipients subject body paths).
Proof. unfold build_message. eauto using keeps_attach_loop with frame. Qed.

Lemma keeps_send_via_gmail_ssl sender app_password recipients msg :
  keeps undeletable (send_via_gmail_ssl sender app_password recipients msg).
Proof.
  intros w.
  destruct (send_via_gmail_ssl_returns sender app_password recipients msg w)
    as (w' & -> & _ & _ & _ & Hu & _).
  done.
Qed.

Lemma keeps_extend_tmp_paths paths :
  keeps (fun ls : list string * World => undeletable (snd ls))
    (extend_tmp_paths paths).
Proof. done. Qed.

Lemma keeps_send_try cfg recipients s_subject s_body more_files :
  keeps (fun ls : list string * World => undeletable (snd ls))
    (send_try cfg recipients s_subject s_body more_files).
Proof.
  unfold send_try, save_uploaded_files_to_tmp, st_error, st_success.
  apply keeps_bind; [eauto with frame|]. intros ls.
  apply keeps_bind.
  { apply keeps_if; eauto 10 using keeps_stage_loop, keeps_extend_tmp_paths
      with frame. }
  intros _. apply keeps_bind.
  { apply keeps_if; eauto 10 using keeps_stage_loop, keeps_extend_tmp_paths
      with frame. }
  intros _. apply keeps_bind; [eauto with frame|]. intros ls'.
  apply keeps_bind; [eauto with frame|]. intros _.
  apply keeps_bind; [eauto using keeps_build_message with frame|]. intros msg.
  apply keeps_bind; [eauto with frame|]. intros _.
  apply keeps_bind; [eauto using keeps_send_via_gmail_ssl with frame|].
  intros [text|]; [|eauto with frame].
  destruct (truthy text); eauto with frame.
Qed.

End undeletable_facts.

(** ** The send handler: cleanup *)

Section cleanup_facts.
Import PyStr Py Os Email Main.

(** one turn of the loop of the [finally]: it never raises, removes [p]
    unless [p] cannot be deleted, and touches no other path *)
Lemma cleanup_one (p : string) (w : World) :
  exists w1,
    try_except
      (present <- os_path_exists p ;;
       if present then os_remove p else ret tt)
      (fun _ => ret tt) w = (Ok tt, w1)
    /\ undeletable w1 = undeletable w
    /\ page w1 = page w
    /\ (p ∉ undeletable w -> fs w1 !! p = None)
    /\ (forall q, q <> p -> fs w1 !! q = fs w !! q).
Proof.
  unfold try_except, bind, os_path_exists, path_exists, os_remove, ret.
  destruct (fs w !! p) as [content|] eqn:E.
  - rewrite bool_decide_eq_true_2 by eauto.
    destruct (bool_decide (p ∈ undeletable w)) eqn:Eu.
    + apply bool_decide_eq_true_1 in Eu. exists w. repeat split; done.
    + apply bool_decide_eq_false_1 in Eu. rewrite E. eexists.
      split; [reflexivity|]. simpl. repeat split; try done.
      * intros _. apply lookup_delete_eq.
      * intros q Hq. by apply lookup_delete_ne.
  - rewrite bool_decide_eq_false_2 by (by intros [? ?]).
    exists w. repeat split; done.
Qed.

Lemma cleanup_spec (paths : list string) :
  forall w : World,
    exists w',
      cleanup paths w = (Ok tt, w')
      /\ undeletable w' = undeletable w
      /\ page w' = page w
      /\ (forall p, p ∈ paths -> p ∉ undeletable w -> fs w' !! p = None)
      /\ (forall q, q ∉ paths -> fs w' !! q = fs w !! q).
Proof.
  induction paths as [|p paths IH]; intros w.
  - exists w. repeat split; try done. intros p Hp. by apply elem_of_nil in Hp.
  - cbn [cleanup]. unfold bind at 1.
    destruct (cleanup_one p w) as (w1 & -> & Hu1 & Hpg1 & Hrm1 & Hfs1).
    destruct (IH w1) as (w' & -> & Hu & Hpg & Hrm & Hfs).
    exists w'. split; [done|]. split; [congruence|]. split; [congruence|].
    split.
    + intros q Hq Hdel. destruct (decide (q ∈ paths)) as [Hin|Hnotin].
      * apply Hrm; [done | by rewrite Hu1].
      * apply elem_of_cons in Hq as [-> | Hq]; [|done].
        rewrite (Hfs _ Hnotin). by apply Hrm1.
    + intros q Hq. apply not_elem_of_cons in Hq as [Hne Hq].
      rewrite (Hfs _ Hq). by apply Hfs1.
Qed.

Lemma keeps_fst_lift {L A} (m : M World A) :
  keeps (fun ls : L * World => fst ls) (lift m).
Proof. intros [l w]. unfold lift. simpl. by destruct (m w). Qed.

(** one of the two [if files: tmp_paths.extend(...)] blocks *)
Lemma staging_block (files : list UploadedFile) (tmp_paths : list string)
    (w : World) :
  (if nonempty files
   then lift (log_call (CallSave files)) ;;;
        paths <- lift (save_uploaded_files_to_tmp files) ;;
        extend_tmp_paths paths
   else ret tt) (tmp_paths, w)
  = match staging_call files w with
    | (Ok paths, w') => (Ok tt, (tmp_paths ++ paths, w'))
    | (Raise e, w') => (Raise e, (tmp_paths, w'))
    end.
Proof.
  unfold staging_call. destruct (nonempty files).
  - unfold bind, lift, log_call, modify, extend_tmp_paths. simpl.
    by destruct (save_uploaded_files_to_tmp files _) as [[paths|e] w'].
  - unfold ret. by rewrite app_nil_r.
Qed.

(** [tmp_paths] holds the paths the staging calls returned: those of the
    default files, then those of the additional files *)
Lemma send_try_tmp_paths cfg recipients s_subject s_body more_files
    (w w1 w2 : World) (paths1 paths2 : list string) :
  staging_call (default_files (session w)) w = (Ok paths1, w1) ->
  staging_call more_files w1 = (Ok paths2, w2) ->
  fst (snd (send_try cfg recipients s_subject s_body more_files ([], w)))
  = paths1 ++ paths2.
Proof.
  intros H1 H2. unfold send_try.
  unfold bind at 1, get. cbn [fst snd].
  unfold bind at 1. rewrite staging_block, H1.
  unfold bind at 1. rewrite staging_block, H2. cbn [app].
  match goal with
  | |- fst (snd (?m ?s)) = _ =>
      enough (keeps (fun ls : list string * World => fst ls) m) as Hk
        by exact (Hk s)
  end.
  apply keeps_bind; [apply keeps_get|]. intros ls.
  repeat (apply keeps_bind; [apply keeps_fst_lift|]; intros ?).
  repeat match goal with
  | |- context [match ?x with _ => _ end] => destruct x
  end; apply keeps_fst_lift.
Qed.




End cleanup_facts.

Example splitext_ex1 : PyStr.splitext "report.pdf" = ("report", ".pdf").
Proof. reflexivity. Qed.
Example splitext_ex2 : PyStr.splitext ".bashrc" = (".bashrc", "").
Proof. reflexivity. Qed.
Example splitext_ex3 : PyStr.splitext "a.tar.gz" = ("a.tar", ".gz").
Proof. reflexivity. Qed.
Example splitext_ex4 : PyStr.splitext "dir.d/file" = ("dir.d/file", "").
Proof. reflexivity. Qed.
Example splitext_ex5 : PyStr.splitext "d/..x.y" = ("d/..x", ".y").
Proof. reflexivity. Qed.
Example basename_ex1 : PyStr.basename "/tmp/stmail_ab.pdf" = "stmail_ab.pdf".
Proof. reflexivity. Qed.
Example path_join_ex1 : PyStr.path_join "/tmp" "x" = "/tmp/x".
Proof. reflexivity. Qed.
Example is_valid_email_ex1 : Email.is_valid_email "a.b+c@example.co" = true.
Proof. reflexivity. Qed.
Example is_valid_email_ex2 : Email.is_valid_email "a b@example.com" = false.
Proof. reflexivity. Qed.
Example is_valid_email_ex3 : Email.is_valid_email "a@example" = false.
Proof. reflexivity. Qed.
Example is_valid_email_ex4 : Email.is_valid_email "@example.com" = false.
Proof. reflexivity. Qed.
Example normalize_ex1 :
  Email.normalize_recipients "a@x.com, ,b@x.com" = ["a@x.com"; "b@x.com"].
Proof. reflexivity. Qed.

(** * Further properties of the code *)

(** ** [split], [join] and [strip] *)

Section split_join_facts.
Import PyStr.

Lemma split_nonempty c (s : string) : split c s <> [].
Proof.
  induction s as [|a s IH]; simpl; [done|].
  destruct (Ascii.eqb a c); [done|]. by destruct (split c s).
Qed.

Lemma join_cons (sep x y : string) (l : list string) :
  join sep (x :: y :: l) = x +:+ sep +:+ join sep (y :: l).
Proof. done. Qed.

(** [sep.join(s.split(sep)) == s] *)
Theorem join_split c (s : string) :
  join (String c "") (split c s) = s.
Proof.
  induction s as [|a s IH]; [done|]. simpl split.
  pose proof (split_nonempty c s) as Hne.
  destruct (Ascii.eqb_spec a c) as [->|Hac].
  - destruct (split c s) as [|h tl]; [done|].
    rewrite join_cons, IH. done.
  - destruct (split c s) as [|h tl]; [done|].
    destruct tl as [|h' tl].
    + simpl in *. by rewrite IH.
    + rewrite <- IH. reflexivity.
Qed.

(** the pieces of a split do not contain the separator *)
Lemma split_pieces c (s : string) :
  Forall (fun x => any_char (Ascii.eqb c) x = false) (split c s).
Proof.
  induction s as [|a s IH]; simpl.
  - by repeat constructor.
  - destruct (Ascii.eqb_spec a c) as [->|Hac].
    + by constructor.
    + pose proof (split_nonempty c s) as Hne.
      destruct (split c s) as [|h tl]; [done|].
      apply Forall_cons in IH as [Hh Htl]. constructor; [|done].
      simpl. rewrite Hh, orb_false_r.
      apply Ascii.eqb_neq. congruence.
Qed.

Lemma split_app_sep c (x t : string) :
  any_char (Ascii.eqb c) x = false ->
  split c (x +:+ String c t) = x :: split c t.
Proof.
  induction x as [|a x IH]; simpl.
  - intros _. by rewrite Ascii.eqb_refl.
  - intros [Ha Hx]%orb_false_iff.
    rewrite Ascii.eqb_sym, Ha, (IH Hx). done.
Qed.

Lemma split_no_sep c (x : string) :
  any_char (Ascii.eqb c) x = false -> split c x = [x].
Proof.
  induction x as [|a x IH]; simpl; [done|].
  intros [Ha Hx]%orb_false_iff.
  by rewrite Ascii.eqb_sym, Ha, (IH Hx).
Qed.

Lemma any_char_lstrip p (s : string) :
  any_char p s = false -> any_char p (lstrip s) = false.
Proof.
  induction s as [|a s IH]; simpl; [done|].
  intros [Ha Hs]%orb_false_iff.
  destruct (is_space a); [auto|]. simpl. by rewrite Ha, Hs.
Qed.

Lemma any_char_rstrip p (s : string) :
  any_char p s = false -> any_char p (rstrip s) = false.
Proof.
  induction s as [|a s IH]; simpl; [done|].
  intros [Ha Hs]%orb_false_iff.
  destruct (is_space a && is_empty (rstrip s)); [done|].
  simpl. by rewrite Ha, IH.
Qed.

Lemma rstrip_idem (s : string) : rstrip (rstrip s) = rstrip s.
Proof.
  induction s as [|a s IH]; simpl; [done|].
  destruct (is_space a && is_empty (rstrip s)) eqn:E; [done|].
  simpl. by rewrite IH, E.
Qed.

Lemma lstrip_head (s : string) :
  lstrip s = "" \/ exists a t, lstrip s = String a t /\ is_space a = false.
Proof.
  induction s as [|a s IH]; simpl; [by left|].
  destruct (is_space a) eqn:E; [done|]. right. by exists a, s.
Qed.

Lemma strip_idem (s : string) : strip (strip s) = strip s.
Proof.
  unfold strip. destruct (lstrip_head s) as [-> | (a & t & -> & Ha)]; [done|].
  simpl. rewrite Ha. simpl. rewrite Ha. simpl. rewrite Ha. simpl.
  by rewrite rstrip_idem.
Qed.

Lemma ends_with_rstrip c (s : string) :
  is_space c = true -> ends_with c (rstrip s) = false.
Proof.
  intros Hc. induction s as [|a s IH]; simpl; [done|].
  destruct (is_space a) eqn:Ea; simpl.
  - destruct (rstrip s) as [|b t]; simpl in *; [done|]. exact IH.
  - destruct (rstrip s) as [|b t]; simpl in *; [|exact IH].
    apply Ascii.eqb_neq. intros ->. congruence.
Qed.

End split_join_facts.

(** ** The normalised recipients *)

Section normalize_facts.
Import PyStr Re Email.

Lemma normalize_recipients_elem (raw r : string) :
  r ∈ normalize_recipients raw ->
  exists x, x ∈ split ","%char raw /\ r = strip x /\ r <> "".
Proof.
  unfold normalize_recipients. intros H.
  apply list_elem_of_In, in_map_iff in H as (x & <- & Hx).
  apply list_elem_of_In, list_elem_of_filter in Hx as [Ht Hx].
  exists x. repeat split; [done|]. by destruct (strip x).
Qed.

Lemma normalized_trimmed (raw r : string)
    (Hr : r ∈ normalize_recipients raw) :
  r <> ""
  /\ any_char (Ascii.eqb ","%char) r = false
  /\ strip r = r
  /\ (forall c, is_space c = true ->
        starts_with c r = false /\ ends_with c r = false).
Proof.
  destruct (normalize_recipients_elem _ _ Hr) as (x & Hx & -> & Hne).
  split; [done|]. split; [|split].
  - pose proof (split_pieces ","%char raw) as Hp.
    rewrite Forall_forall in Hp.
    by apply any_char_rstrip, any_char_lstrip, Hp.
  - apply strip_idem.
  - intros c Hc. split; [|by apply ends_with_rstrip].
    unfold strip in *.
    destruct (lstrip_head x) as [E | (a & t & E & Ha)]; rewrite E in *; [done|].
    simpl. rewrite Ha. simpl.
    apply Ascii.eqb_neq. intros ->. congruence.
Qed.

(** Every normalised recipient is non-empty, holds no comma and has no
    whitespace at either end. *)
Theorem normalize_recipients_trimmed (raw r : string)
    (Hr : r ∈ normalize_recipients raw) :
  r <> ""
  /\ any_char (Ascii.eqb ","%char) r = false
  /\ strip r = r
  /\ (forall c, is_space c = true ->
        starts_with c r = false /\ ends_with c r = false).
Proof. exact (normalized_trimmed raw r Hr). Qed.

Lemma normalize_recipients_trimmed_witness :
  "a@x.com" <> ""
  /\ any_char (Ascii.eqb ","%char) "a@x.com" = false
  /\ strip "a@x.com" = "a@x.com".
Proof.
  destruct (normalize_recipients_trimmed "a@x.com, ,b@x.com" "a@x.com")
    as (H1 & H2 & H3 & _); [|done].
  vm_compute. left.
Defined.

(** On the recipients the handler validates, [is_valid_email] is exactly
    the shape [local@first.rest]: a normalised recipient cannot end with the
    newline that [$] would let pass. *)
Theorem is_valid_email_on_normalized (raw r : string)
    (Hr : r ∈ normalize_recipients raw) :
  is_valid_email r = true <-> local_first_rest r.
Proof.
  destruct (normalize_recipients_elem _ _ Hr) as (x & _ & -> & _).
  rewrite is_valid_email_spec. split; [|by left].
  intros [H | (s' & E & _)]; [done|].
  pose proof (ends_with_rstrip "010"%char (lstrip x) eq_refl) as Hend.
  fold (strip x) in Hend. rewrite E in Hend. unfold newline in Hend.
  by rewrite ends_with_snoc in Hend.
Qed.

Lemma is_valid_email_on_normalized_witness :
  is_valid_email "b@x.com" = true <-> local_first_rest "b@x.com".
Proof.
  apply (is_valid_email_on_normalized "a@x.com, ,b@x.com").
  vm_compute. right. left.
Defined.

Lemma split_lead_space (t : string) :
  normalize_recipients (String " " t) = normalize_recipients t.
Proof.
  unfold normalize_recipients. simpl split.
  pose proof (split_nonempty ","%char t) as Hne.
  destruct (split ","%char t) as [|h tl]; [done|].
  rewrite !filter_cons.
  change (strip (String " " h)) with (strip h).
  destruct (decide (truthy (strip h) = true)); simpl; [|done].
  by change (strip (String " " h)) with (strip h).
Qed.

Lemma normalize_recipients_piece (x t : string) :
  any_char (Ascii.eqb ","%char) x = false ->
  strip x = x -> x <> "" ->
  normalize_recipients (x +:+ String ","%char t) = x :: normalize_recipients t.
Proof.
  intros Hx Hs Hne. unfold normalize_recipients.
  rewrite (split_app_sep _ _ _ Hx), filter_cons.
  rewrite decide_True by (rewrite Hs; by destruct x).
  simpl. by rewrite Hs.
Qed.

Lemma normalize_recipients_join (l : list string) :
  Forall (fun r => r <> "" /\ any_char (Ascii.eqb ","%char) r = false
                   /\ strip r = r) l ->
  normalize_recipients (join ", " l) = l.
Proof.
  induction l as [|x l IH]; [done|].
  intros [(Hne & Hc & Hs) Hl]%Forall_cons.
  destruct l as [|y l].
  - simpl. unfold normalize_recipients.
    rewrite (split_no_sep _ _ Hc), filter_cons.
    rewrite decide_True by (rewrite Hs; by destruct x).
    simpl. by rewrite Hs.
  - rewrite join_cons.
    change (x +:+ ", " +:+ join ", " (y :: l))
      with (x +:+ String ","%char (String " " (join ", " (y :: l)))).
    rewrite (normalize_recipients_piece _ _ Hc Hs Hne), split_lead_space.
    by rewrite (IH Hl).
Qed.

(** The [To] header of the message reads back as the recipients: normalising
    [", ".join(recipients)] gives the normalised recipients again. *)
Theorem normalize_recipients_of_to_header (raw : string) :
  normalize_recipients (join ", " (normalize_recipients raw))
  = normalize_recipients raw.
Proof.
  apply normalize_recipients_join, Forall_forall. intros r Hr.
  destruct (normalized_trimmed _ _ Hr) as (H1 & H2 & H3 & _).
  done.
Qed.

End normalize_facts.

(** ** [os.path.splitext] *)

Section splitext_facts.
Import PyStr.

Lemma substring_all (s : string) : String.substring 0 (String.length s) s = s.
Proof. induction s as [|a s IH]; simpl; [done | by rewrite IH]. Qed.

Lemma substring_cut (s : string) :
  forall n, n <= String.length s ->
    String.substring 0 n s +:+ String.substring n (String.length s - n) s = s.
Proof.
  induction s as [|a s IH]; intros [|n] Hn; simpl in *; try done; try lia.
  - by rewrite substring_all.
  - rewrite IH by lia. done.
Qed.

(** [rfind] gives [-1] or the index of an occurrence *)
Lemma rfind_from_spec c (s : string) :
  forall i, (0 <= i)%Z ->
    let r := rfind_from c s i in
    r = (-1)%Z
    \/ ((i <= r < i + Z.of_nat (String.length s))%Z
        /\ String.get (Z.to_nat (r - i)) s = Some c).
Proof.
  induction s as [|a s IH]; intros i Hi; simpl; [by left|].
  destruct (IH (i + 1)%Z ltac:(lia)) as [E | [Hr Hg]].
  - rewrite E. simpl.
    destruct (Ascii.eqb_spec a c) as [->|]; [|by left].
    right. split; [lia|]. by rewrite Z.sub_diag.
  - rewrite (proj2 (Z.leb_le _ _)) by lia. right. split; [lia|].
    replace (Z.to_nat (rfind_from c s (i + 1) - i))
      with (S (Z.to_nat (rfind_from c s (i + 1) - (i + 1)))) by lia.
    done.
Qed.

Lemma substring_head c (s : string) :
  forall n m, String.get n s = Some c ->
    starts_with c (String.substring n (S m) s) = true.
Proof.
  induction s as [|a s IH]; intros [|n] m; simpl; try done.
  - intros [= ->]. apply Ascii.eqb_refl.
  - apply IH.
Qed.

Lemma get_length (s : string) n c :
  String.get n s = Some c -> n < String.length s.
Proof.
  revert n. induction s as [|a s IH]; intros [|n]; simpl; try done; [lia|].
  intros H%IH. lia.
Qed.

(** [splitext] cuts a path in two: the root and the extension put together
    are the path, and the extension is empty or starts with a dot. *)
Theorem splitext_root_ext (p : string) :
  fst (splitext p) +:+ snd (splitext p) = p
  /\ (snd (splitext p) = ""
      \/ starts_with "."%char (snd (splitext p)) = true).
Proof.
  unfold splitext.
  destruct (_ && _) eqn:E; simpl; [|split; [apply str_app_empty_r | by left]].
  apply andb_true_iff in E as [Hlt _]. apply Z.ltb_lt in Hlt.
  destruct (rfind_from_spec "/"%char p 0 ltac:(lia)) as [Es | [Hs _]];
    destruct (rfind_from_spec "."%char p 0 ltac:(lia)) as [Ed | [Hd Hg]];
    unfold rfind in *; try lia.
  all: rewrite Z.sub_0_r in Hg; pose proof (get_length _ _ _ Hg) as Hlen.
  all: unfold slice, slice_from; rewrite Z.sub_0_r; simpl Z.to_nat at 1.
  all: split; [by apply substring_cut; lia|]; right.
  all: destruct (String.length p - Z.to_nat (rfind_from "." p 0)) eqn:En;
    [lia | by apply substring_head].
Qed.

End splitext_facts.

(** ** [send_via_gmail_ssl]: when it reports success, and its session *)

Section session_facts.
Import PyStr Py Os Main Parts.



(** The session of one call: a connection to [smtp.gmail.com:465]; when it
    is made, a login, then [sendmail] with the given sender, recipients and
    message if and only if the login was accepted, and in every case the
    closing [QUIT]. *)
Theorem send_via_gmail_ssl_session sender app_password recipients msg
    (w : World) :
  smtp_log (snd (send_via_gmail_ssl sender app_password recipients msg w))
  = smtp_log w ++ session_events (relay w) sender app_password recipients msg.
Proof.
  unfold send_via_gmail_ssl, session_events, try_except, try_finally, bind,
    SMTP_SSL, login, sendmail, smtp_exit, log_smtp, modify, ret, raise, bind.
  simpl. destruct (relay_connect_error (relay w)); simpl; [done|].
  destruct (relay_accepts_login (relay w) sender app_password); simpl.
  - destruct (_ =? _); simpl.
    + by rewrite <- !List.app_assoc.
    + destruct (relay_data_error (relay w)); simpl;
        by rewrite <- !List.app_assoc.
  - by rewrite <- !List.app_assoc.
Qed.

End session_facts.

(** ** What staging, building and cleaning up leave alone *)

Section staging_frame.
Import PyStr Py Os Main Parts.
Context {B : Type} (proj : World -> B).
Hypothesis Hpage : forall f w, proj (with_page f w) = proj w.
Hypothesis Hfs : forall f w, proj (with_fs f w) = proj w.
Hypothesis Hnames : forall f w, proj (with_tmp_candidates f w) = proj w.
Hypothesis Hdisk : forall f w, proj (with_disk_free f w) = proj w.

Lemma stage_file_keeps f paths : keeps proj (stage_file f paths).
Proof.
  intros w. unfold stage_file, bind, st_warning, modify, NamedTemporaryFile,
    tmp_write, ret.
  destruct (max_size <? uf_size f)%Z; cbn [snd]; [apply Hpage|].
  destruct (draw_name _ _ _ _ _) as [[path rest]|]; cbn [snd]; [|apply Hnames].
  cbn [disk_free with_fs with_tmp_candidates].
  destruct (_ <=? _); cbn [snd];
    repeat (rewrite Hfs || rewrite Hdisk || rewrite Hnames); reflexivity.
Qed.

Lemma stage_loop_keeps files : forall paths, keeps proj (stage_loop files paths).
Proof.
  induction files as [|f files IH]; intros paths; cbn [stage_loop].
  - apply keeps_ret.
  - apply keeps_bind; [apply stage_file_keeps | apply IH].
Qed.

Lemma cleanup_keeps paths : keeps proj (cleanup paths).
Proof.
  induction paths as [|p paths IH]; cbn [cleanup]; [apply keeps_ret|].
  apply keeps_bind; [|by intros _].
  intros w. destruct (cleanup_one p w) as (w1 & E & _).
  unfold try_except, bind, os_path_exists, os_remove, ret in *.
  destruct (path_exists w p); cbn [snd]; [|done].
  destruct (bool_decide _); cbn [snd]; [done|].
  destruct (fs w !! p); cbn [snd]; [|done].
  by rewrite Hfs, Hdisk.
Qed.

End staging_frame.

Section building_frame.
Import PyStr Py Os Main Parts.

(** [build_message] only reads *)
Lemma attach_loop_world paths :
  forall parts w, snd (attach_loop paths parts w) = w.
Proof.
  induction paths as [|p paths IH]; intros parts w; cbn [attach_loop]; [done|].
  unfold bind, os_path_isfile, read_file.
  destruct (path_exists w p); simpl; [|apply IH].
  destruct (bool_decide _); simpl; [done|].
  destruct (fs w !! p); simpl; [apply IH | done].
Qed.

Lemma build_message_world sender recipients subject body paths (w : World) :
  snd (build_message sender recipients subject body paths w) = w.
Proof.
  unfold build_message, bind. pose proof (attach_loop_world paths [] w) as H.
  by destruct (attach_loop paths [] w) as [[parts|e] w'].
Qed.

(** [send_via_gmail_ssl] only writes the log of the session *)
Lemma send_via_gmail_ssl_world sender app_password recipients msg (w : World) :
  snd (send_via_gmail_ssl sender app_password recipients msg w)
  = with_smtp_log
      (fun l => l ++ session_events (relay w) sender app_password recipients msg)
      w.
Proof.
  unfold send_via_gmail_ssl, session_events, try_except, try_finally, bind,
    SMTP_SSL, login, sendmail, smtp_exit, log_smtp, modify, ret, raise, bind.
  unfold with_smtp_log.
  simpl. destruct (relay_connect_error (relay w)); simpl; [done|].
  destruct (relay_accepts_login (relay w) sender app_password); simpl.
  - destruct (_ =? _); simpl.
    + by rewrite <- !List.app_assoc.
    + destruct (relay_data_error (relay w)); simpl;
        by rewrite <- !List.app_assoc.
  - by rewrite <- !List.app_assoc.
Qed.

Lemma send_try_parts cfg recipients s_subject s_body more_files :
  send_try cfg recipients s_subject s_body more_files
  = (ls <- get ;;
     staging_step (default_files (session (snd ls))) ;;;
     staging_step more_files ;;;
     send_rest cfg recipients s_subject s_body).
Proof. reflexivity. Qed.

End building_frame.

(** ** The send handler: what one click does *)

Section handler_facts.
Import PyStr Py Os Email Main Parts.

(** the handler, once validation has passed: the body of the [try], then
    the cleanup of [tmp_paths], which returns *)
Lemma send_handler_run (cfg : Config) (recipients_raw s_subject s_body : string)
    (more_files : list UploadedFile) (w : World) :
  strip recipients_raw <> "" ->
  invalid_emails (normalize_recipients recipients_raw) = [] ->
  let body := send_try cfg (normalize_recipients recipients_raw)
                s_subject s_body more_files ([], w) in
  exists w2,
    send_handler cfg recipients_raw s_subject s_body more_files w
    = (fst body, w2)
    /\ cleanup (fst (snd body)) (snd (snd body)) = (Ok tt, w2).
Proof.
  intros Hraw Hvalid body. unfold send_handler.
  destruct (strip recipients_raw) as [|c r] eqn:E; [done|]. simpl.
  rewrite Hvalid. simpl. unfold try_finally. fold body.
  destruct body as [r1 [tmp_paths w1]]. simpl.
  unfold send_finally, bind, get, lift. simpl.
  destruct (cleanup_spec tmp_paths w1) as (w2 & -> & _).
  by exists w2.
Qed.

(** Either the handler only shows an error, or every recipient it goes on
    with has passed [is_valid_email]: nothing is staged, built or sent for a
    list that holds an invalid address. *)
Theorem send_handler_gate (cfg : Config) (recipients_raw s_subject s_body : string)
    (more_files : list UploadedFile) (w : World) :
  (exists text,
     send_handler cfg recipients_raw s_subject s_body more_files w
     = (Ok tt, with_page (fun p => p ++ [StError text]) w))
  \/ Forall (fun r => is_valid_email r = true)
       (normalize_recipients recipients_raw).
Proof.
  unfold send_handler.
  destruct (truthy (strip recipients_raw)); simpl; [|left; by eexists].
  destruct (invalid_emails (normalize_recipients recipients_raw)) eqn:E;
    simpl; [|left; by eexists].
  right. apply Forall_forall. intros r Hr.
  destruct (is_valid_email r) eqn:Ev; [done|].
  assert (r ∈ invalid_emails (normalize_recipients recipients_raw)) as Hin.
  { unfold invalid_emails. by apply list_elem_of_filter. }
  rewrite E in Hin. by apply elem_of_nil in Hin.
Qed.

Lemma staging_step_run (files : list UploadedFile) (tmp_paths : list string)
    (w : World) :
  staging_step files (tmp_paths, w)
  = match staging_call files w with
    | (Ok paths, w') => (Ok tt, (tmp_paths ++ paths, w'))
    | (Raise e, w') => (Raise e, (tmp_paths, w'))
    end.
Proof. apply staging_block. Qed.

Lemma staging_call_log (files : list UploadedFile) (w : World) :
  smtp_log (snd (staging_call files w)) = smtp_log w.
Proof.
  unfold staging_call. destruct (nonempty files); [|done].
  unfold bind, log_call, modify. cbn [fst snd].
  exact (stage_loop_keeps smtp_log (fun _ _ => eq_refl) (fun _ _ => eq_refl)
           (fun _ _ => eq_refl) (fun _ _ => eq_refl) files []
           (with_call_log (fun l => l ++ [CallSave files]) w)).
Qed.

(** what a staging call that returns has done to the files *)
Lemma staging_call_ok (files : list UploadedFile) (w w1 : World)
    (paths : list string) :
  staging_call files w = (Ok paths, w1) ->
  Forall (fun p => fs w !! p = None) paths
  /\ (forall q, q ∉ paths -> fs w1 !! q = fs w !! q).
Proof.
  unfold staging_call. destruct (nonempty files).
  - unfold bind, log_call, modify. simpl. intros H.
    destruct (stage_loop_ok _ _ _ _ _ H)
      as (new & -> & Hst & _ & _ & Hfs & _).
    simpl in *. split; [|done].
    apply Forall_forall. intros p Hp.
    apply list_elem_of_lookup in Hp as [i Hi].
    by destruct (Forall2_lookup_l _ _ _ _ _ Hst Hi) as (g & _ & Hq & _).
  - intros [= <- <-]. by split.
Qed.

(** the rest of the [try] body keeps [tmp_paths] and the files, and opens
    at most one session *)
Lemma send_rest_frame cfg recipients s_subject s_body
    (tmp_paths : list string) (w : World) :
  let out := send_rest cfg recipients s_subject s_body (tmp_paths, w) in
  fst (snd out) = tmp_paths
  /\ fs (snd (snd out)) = fs w
  /\ connects (smtp_log (snd (snd out))) <= connects (smtp_log w) + 1.
Proof.
  unfold send_rest, bind, get, lift, log_call, modify. cbn [fst snd].
  match goal with |- context [build_message ?a ?b ?c ?d ?e ?w0] =>
    pose proof (build_message_world a b c d e w0) as Hb;
    destruct (build_message a b c d e w0) as [[msg|e0] wb]
  end; cbn [fst snd] in *; subst wb; [|simpl; repeat split; lia].
  match goal with |- context [send_via_gmail_ssl ?a ?b ?c ?d ?w0] =>
    pose proof (send_via_gmail_ssl_world a b c d w0) as Hs;
    destruct (send_via_gmail_ssl_returns a b c d w0) as (ws & Es & Hc & _);
    rewrite Es in Hs |- *
  end.
  cbn [fst snd] in *. simpl in Hc.
  assert (fs ws = fs w) as Hfs by (by rewrite Hs).
  destruct (session_outcome _ _ _ _) as [text|];
    [destruct (truthy text)|]; simpl; repeat split; try done; lia.
Qed.

Lemma cleanup_log (paths : list string) (w : World) :
  smtp_log (snd (cleanup paths w)) = smtp_log w.
Proof.
  exact (cleanup_keeps smtp_log (fun _ _ => eq_refl) (fun _ _ => eq_refl)
           paths w).
Qed.

(** One click opens at most one session with the relay: there is no retry,
    whatever the input and whatever fails. *)
Theorem send_handler_at_most_one_session (cfg : Config)
    (recipients_raw s_subject s_body : string)
    (more_files : list UploadedFile) (w : World) :
  connects (smtp_log (snd (send_handler cfg recipients_raw s_subject s_body
                             more_files w)))
  <= connects (smtp_log w) + 1.
Proof.
  destruct (decide (strip recipients_raw = "")) as [E|Hraw].
  { rewrite send_handler_blank by done. simpl. lia. }
  destruct (invalid_emails (normalize_recipients recipients_raw)) eqn:Ei.
  2: { unfold send_handler.
       destruct (strip recipients_raw); [done|]. simpl. rewrite Ei. simpl. lia. }
  destruct (send_handler_run cfg recipients_raw s_subject s_body more_files w
              Hraw Ei) as (w2 & -> & Hc).
  cbn [snd].
  set (body := send_try cfg (normalize_recipients recipients_raw) s_subject
                 s_body more_files ([], w)) in *.
  pose proof (cleanup_log (fst (snd body)) (snd (snd body))) as Hlog.
  rewrite Hc in Hlog. cbn [snd] in Hlog. rewrite Hlog. subst body.
  rewrite send_try_parts. unfold bind at 1, get. cbn [fst snd].
  unfold bind at 1. rewrite staging_step_run.
  pose proof (staging_call_log (default_files (session w)) w) as L1.
  destruct (staging_call _ w) as [[ps1|e1] w1]; cbn [snd] in *;
    [|rewrite L1; lia].
  unfold bind at 1. rewrite staging_step_run.
  pose proof (staging_call_log more_files w1) as L2.
  destruct (staging_call _ w1) as [[ps2|e2] w2']; cbn [snd] in *;
    [|rewrite L2, L1; lia].
  destruct (send_rest_frame cfg (normalize_recipients recipients_raw)
              s_subject s_body ([] ++ ps1 ++ ps2) w2') as (_ & _ & Hle).
  rewrite L2, L1 in Hle. exact Hle.
Qed.

Lemma send_try_staged cfg recipients s_subject s_body more_files
    (w w1 w2 : World) (paths1 paths2 : list string) :
  staging_call (default_files (session w)) w = (Ok paths1, w1) ->
  staging_call more_files w1 = (Ok paths2, w2) ->
  send_try cfg recipients s_subject s_body more_files ([], w)
  = send_rest cfg recipients s_subject s_body (paths1 ++ paths2, w2).
Proof.
  intros H1 H2. rewrite send_try_parts. unfold bind at 1, get. cbn [fst snd].
  unfold bind at 1. rewrite staging_step_run, H1.
  unfold bind at 1. by rewrite staging_step_run, H2.
Qed.

Lemma send_try_second_staging_fails cfg recipients s_subject s_body more_files
    (w w1 w2 : World) (paths1 : list string) (e : exn) :
  staging_call (default_files (session w)) w = (Ok paths1, w1) ->
  staging_call more_files w1 = (Raise e, w2) ->
  send_try cfg recipients s_subject s_body more_files ([], w)
  = (Raise e, (paths1, w2)).
Proof.
  intros H1 H2. rewrite send_try_parts. unfold bind at 1, get. cbn [fst snd].
  unfold bind at 1. rewrite staging_step_run, H1.
  unfold bind at 1. by rewrite staging_step_run, H2.
Qed.

(** When both staging calls return and the staged paths can be deleted, the
    handler leaves the files as it found them: no temporary file outlives
    the click, whether the message was built and sent or not. *)
Theorem send_handler_leaves_no_file (cfg : Config)
    (recipients_raw s_subject s_body : string)
    (more_files : list UploadedFile) (w w1 w2 : World)
    (paths1 paths2 : list string)
    (Hraw : strip recipients_raw <> "")
    (Hvalid : invalid_emails (normalize_recipients recipients_raw) = [])
    (H1 : staging_call (default_files (session w)) w = (Ok paths1, w1))
    (H2 : staging_call more_files w1 = (Ok paths2, w2))
    (Hdel : forall p, p ∈ paths1 ++ paths2 -> p ∉ undeletable w) :
  fs (snd (send_handler cfg recipients_raw s_subject s_body more_files w))
  = fs w.
Proof.
  destruct (send_handler_run cfg recipients_raw s_subject s_body more_files w
              Hraw Hvalid) as (wf & -> & Hc).
  pose proof (keeps_send_try cfg (normalize_recipients recipients_raw)
                s_subject s_body more_files ([], w)) as Hund.
  rewrite (send_try_staged _ _ _ _ _ _ _ _ _ _ H1 H2) in Hc, Hund.
  destruct (send_rest_frame cfg (normalize_recipients recipients_raw)
              s_subject s_body (paths1 ++ paths2) w2) as (Htp & Hfs & _).
  rewrite Htp in Hc. cbn [snd] in *.
  destruct (cleanup_spec (paths1 ++ paths2)
              (snd (snd (send_rest cfg (normalize_recipients recipients_raw)
                           s_subject s_body (paths1 ++ paths2, w2)))))
    as (wf' & Hc' & _ & _ & Hrm & Hkeep).
  rewrite Hc in Hc'. injection Hc' as <-.
  destruct (staging_call_ok _ _ _ _ H1) as (Hnew1 & Hfs1).
  destruct (staging_call_ok _ _ _ _ H2) as (Hnew2 & Hfs2).
  rewrite Forall_forall in Hnew1, Hnew2.
  assert (forall q, q ∈ paths1 ++ paths2 -> fs w !! q = None) as Hnew.
  { intros q Hq. destruct (decide (q ∈ paths1)) as [Hin|Hnotin]; [auto|].
    apply elem_of_app in Hq as [Hq|Hq]; [done|].
    rewrite <- (Hfs1 _ Hnotin). auto. }
  apply map_eq. intros q.
  destruct (decide (q ∈ paths1 ++ paths2)) as [Hin|Hnotin].
  - rewrite (Hnew _ Hin). apply Hrm; [done|]. rewrite Hund. auto.
  - rewrite (Hkeep _ Hnotin), Hfs.
    apply not_elem_of_app in Hnotin as [Hn1 Hn2].
    by rewrite (Hfs2 _ Hn2), (Hfs1 _ Hn1).
Qed.

Lemma send_handler_leaves_no_file_witness :
  fs (snd (send_handler Demo.cfg0 "a@x.com" "S" "B"
             [Demo.note_txt; Demo.photo_png]
             (Demo.world0 Demo.relay_accepting)))
  = ∅.
Proof.
  set (w := Demo.world0 Demo.relay_accepting).
  apply (send_handler_leaves_no_file Demo.cfg0 "a@x.com" "S" "B"
           [Demo.note_txt; Demo.photo_png] w w
           (snd (staging_call [Demo.note_txt; Demo.photo_png] w))
           [] ["/tmp/stmail_k3v9x0aa.txt"; "/tmp/stmail_q1w2e3r4.png"]).
  - vm_compute. discriminate.
  - vm_compute. reflexivity.
  - vm_compute. reflexivity.
  - vm_compute. reflexivity.
  - intros p _. simpl. apply not_elem_of_empty.
Defined.

(** When the second staging call raises, the handler raises the same
    exception without building or sending anything, and its cleanup only
    knows the paths of the first call: whatever the failed call has written
    stays on the disk. *)
Theorem send_handler_failed_staging (cfg : Config)
    (recipients_raw s_subject s_body : string)
    (more_files : list UploadedFile) (w w1 w2 : World)
    (paths1 : list string) (e : exn)
    (Hraw : strip recipients_raw <> "")
    (Hvalid : invalid_emails (normalize_recipients recipients_raw) = [])
    (H1 : staging_call (default_files (session w)) w = (Ok paths1, w1))
    (H2 : staging_call more_files w1 = (Raise e, w2)) :
  let run := send_handler cfg recipients_raw s_subject s_body more_files w in
  fst run = Raise e
  /\ (forall q, q ∉ paths1 -> fs (snd run) !! q = fs w2 !! q)
  /\ smtp_log (snd run) = smtp_log w
  /\ page (snd run) = page w2.
Proof.
  destruct (send_handler_run cfg recipients_raw s_subject s_body more_files w
              Hraw Hvalid) as (wf & E & Hc).
  rewrite (send_try_second_staging_fails _ _ _ _ _ _ _ _ _ _ H1 H2) in E, Hc.
  cbn [fst snd] in *. cbn zeta. rewrite E. cbn [fst snd].
  destruct (cleanup_spec paths1 w2) as (wf' & Hc' & _ & Hpg & _ & Hkeep).
  rewrite Hc in Hc'. injection Hc' as <-.
  pose proof (cleanup_log paths1 w2) as Hlog. rewrite Hc in Hlog.
  cbn [snd] in Hlog.
  pose proof (staging_call_log (default_files (session w)) w) as L1.
  pose proof (staging_call_log more_files w1) as L2.
  rewrite H1 in L1. rewrite H2 in L2. cbn [snd] in *.
  repeat split; try done. congruence.
Qed.

Lemma send_handler_failed_staging_witness :
  let run := send_handler Demo.cfg0 "a@x.com" "S" "B"
               [Demo.note_txt; Demo.photo_png] (Demo.world_with_room 2) in
  fst run = Raise (OSError "No space left on device")
  /\ fs (snd run) !! "/tmp/stmail_k3v9x0aa.txt" = Some [Byte.x68; Byte.x69]
  /\ smtp_log (snd run) = [].
Proof.
  set (w := Demo.world_with_room 2).
  set (w2 := snd (staging_call [Demo.note_txt; Demo.photo_png] w)).
  destruct (send_handler_failed_staging Demo.cfg0 "a@x.com" "S" "B"
              [Demo.note_txt; Demo.photo_png] w w w2 []
              (OSError "No space left on device"))
    as (Hr & Hfs & Hlog & _).
  - vm_compute. discriminate.
  - vm_compute. reflexivity.
  - vm_compute. reflexivity.
  - vm_compute. reflexivity.
  - split; [exact Hr|]. split; [|exact Hlog].
    rewrite Hfs by apply not_elem_of_nil. vm_compute. reflexivity.
Defined.

Lemma attachments_of_staged (w w' : World) (paths : list string)
    (files : list UploadedFile) :
  Forall2 (staged_as w w') paths files ->
  attachments_of w' paths = zip_with attachment_of paths files.
Proof.
  unfold attachments_of.
  induction 1 as [|p f ps fl (_ & Hp & _) Hst IH]; [done|].
  simpl. rewrite Hp. simpl. f_equal. exact IH.
Qed.

(** Staging, then building: when [save_uploaded_files_to_tmp] has returned
    and its files can be read, [build_message] attaches the content of
    every upload within the cap, in the order of the uploads, each under the
    name of its temporary file. *)
Theorem build_message_attaches_staged (files : list UploadedFile)
    (w w' : World) (paths : list string)
    (sender : string) (recipients : list string) (subject body : string)
    (Hstaged : save_uploaded_files_to_tmp files w = (Ok paths, w'))
    (Hread : forall p, p ∈ paths -> p ∉ unreadable w') :
  exists msg,
    build_message sender recipients subject body paths w' = (Ok msg, w')
    /\ msg_attachments msg
       = zip_with attachment_of paths (List.filter within_cap files).
Proof.
  destruct (stage_loop_ok _ _ _ _ _ Hstaged) as (new & -> & Hst & _).
  cbn [app] in *. unfold build_message, bind.
  rewrite attach_loop_spec by (intros p Hp _; by apply Hread).
  eexists. split; [reflexivity|]. cbn [msg_attachments app].
  by apply (attachments_of_staged w).
Qed.

Lemma build_message_attaches_staged_witness :
  let w := Demo.world0 Demo.relay_accepting in
  let w' := snd (save_uploaded_files_to_tmp
                   [Demo.note_txt; Demo.big_bin; Demo.photo_png] w) in
  exists msg,
    build_message "me@gmail.com" ["a@x.com"] "S" "B"
      ["/tmp/stmail_k3v9x0aa.txt"; "/tmp/stmail_q1w2e3r4.png"] w'
    = (Ok msg, w')
    /\ map att_payload (msg_attachments msg)
       = [[Byte.x68; Byte.x69]; [Byte.x89; Byte.x50; Byte.x4e]].
Proof.
  intros w w'.
  destruct (build_message_attaches_staged
              [Demo.note_txt; Demo.big_bin; Demo.photo_png] w w'
              ["/tmp/stmail_k3v9x0aa.txt"; "/tmp/stmail_q1w2e3r4.png"]
              "me@gmail.com" ["a@x.com"] "S" "B")
    as (msg & E & Ha).
  - vm_compute. reflexivity.
  - intros p _. simpl. apply not_elem_of_empty.
  - exists msg. split; [exact E|]. rewrite Ha. reflexivity.
Defined.

End handler_facts.

(** ** The defaults: first load, unreachable store, upsert *)

Section store_facts.
Import PyStr Py Os Mongo Parts.

Lemma find_one_app owner (l1 l2 : list (gmap string value)) :
  find_one owner (l1 ++ l2)
  = match find_one owner l1 with
    | Some d => Some d
    | None => find_one owner l2
    end.
Proof.
  unfold find_one. induction l1 as [|d l1 IH]; simpl; [done|].
  by destruct (is_owned_by owner d).
Qed.

Lemma find_one_owned owner (coll : list (gmap string value)) d :
  find_one owner coll = Some d -> d !! "user" = Some (VStr owner).
Proof.
  unfold find_one. intros H. apply List.find_some in H as [_ H].
  unfold is_owned_by in H. by apply bool_decide_eq_true_1 in H.
Qed.

Lemma empty_defaults_owned owner :
  is_owned_by owner (empty_defaults owner) = true.
Proof.
  unfold empty_defaults.
  change [("subject", VStr ""); ("body", VStr ""); ("file_metadata", VMeta [])]
    with (saved_fields "" "" []).
  rewrite is_owned_by_set_fields. unfold is_owned_by.
  by rewrite lookup_singleton_eq, bool_decide_eq_true_2.
Qed.

(** First load: when the owner has no document, loading inserts one
    document with empty fields and leaves session and page alone; loading
    again inserts nothing more and puts the empty defaults in the session. *)
Theorem load_defaults_provisions (cfg : Config) (w : World)
    (Hup : mongo_up w = true)
    (Hnone : find_one (GMAIL_USER cfg) (defaults_collection w) = None) :
  let w1 := snd (load_defaults_from_mongo cfg w) in
  let w2 := snd (load_defaults_from_mongo cfg w1) in
  fst (load_defaults_from_mongo cfg w) = Ok tt
  /\ defaults_collection w1
     = defaults_collection w ++ [empty_defaults (GMAIL_USER cfg)]
  /\ session w1 = session w /\ page w1 = page w
  /\ defaults_collection w2 = defaults_collection w1
  /\ default_subject (session w2) = VStr ""
  /\ default_body (session w2) = VStr ""
  /\ default_file_metadata (session w2) = VMeta [].
Proof.
  assert (load_defaults_from_mongo cfg w
          = (Ok tt, with_defaults_collection
                      (fun _ => defaults_collection w
                                ++ [empty_defaults (GMAIL_USER cfg)]) w)) as E1.
  { unfold load_defaults_from_mongo, try_except, bind, mongo_call.
    rewrite Hup. cbn [fst snd]. rewrite Hnone.
    cbn [mongo_up with_defaults_collection]. rewrite Hup. reflexivity. }
  cbn zeta. rewrite E1. cbn [fst snd].
  repeat (split; [done|]).
  unfold load_defaults_from_mongo, try_except, bind, mongo_call.
  cbn [mongo_up defaults_collection with_defaults_collection fst snd].
  rewrite Hup. cbn [fst snd].
  rewrite find_one_app, Hnone. unfold find_one. cbn [List.find].
  rewrite empty_defaults_owned.
  rewrite bool_decide_eq_false_2.
  2: { unfold empty_defaults, set_fields. simpl. apply insert_non_empty. }
  unfold modify. cbn [fst snd]. unfold empty_defaults, doc_get, set_fields.
  simpl. repeat split; done.
Qed.

Lemma load_defaults_provisions_witness :
  let w := Demo.world0 Demo.relay_accepting in
  let w1 := snd (load_defaults_from_mongo Demo.cfg0 w) in
  defaults_collection w1 = [empty_defaults "me@gmail.com"]
  /\ session w1 = session w.
Proof.
  destruct (load_defaults_provisions Demo.cfg0
              (Demo.world0 Demo.relay_accepting) eq_refl eq_refl)
    as (_ & H1 & H2 & _).
  split; [exact H1 | exact H2].
Defined.

(** Loading when the owner has a document changes neither the collection
    nor the page nor the uploaded default files; a field the document lacks
    is loaded as the empty string or the empty list. *)
Theorem load_defaults_existing (cfg : Config) (w : World)
    (d : gmap string value)
    (Hup : mongo_up w = true)
    (Hfound : find_one (GMAIL_USER cfg) (defaults_collection w) = Some d) :
  let w1 := snd (load_defaults_from_mongo cfg w) in
  fst (load_defaults_from_mongo cfg w) = Ok tt
  /\ defaults_collection w1 = defaults_collection w
  /\ page w1 = page w
  /\ default_files (session w1) = default_files (session w)
  /\ (forall v, d !! "subject" = Some v -> default_subject (session w1) = v)
  /\ (d !! "subject" = None -> default_subject (session w1) = VStr "")
  /\ (forall v, d !! "body" = Some v -> default_body (session w1) = v)
  /\ (d !! "body" = None -> default_body (session w1) = VStr "")
  /\ (forall v, d !! "file_metadata" = Some v ->
        default_file_metadata (session w1) = v)
  /\ (d !! "file_metadata" = None ->
        default_file_metadata (session w1) = VMeta []).
Proof.
  assert (d <> ∅) as Hne.
  { intros ->. apply find_one_owned in Hfound.
    by rewrite lookup_empty in Hfound. }
  unfold load_defaults_from_mongo, try_except, bind, mongo_call, modify.
  rewrite Hup. cbn [fst snd]. rewrite Hfound.
  rewrite bool_decide_eq_false_2 by done. cbn. unfold doc_get.
  repeat split; try done; try (by intros v ->); by intros ->.
Qed.

Lemma load_defaults_existing_witness :
  let w := with_defaults_collection
             (fun _ => [{["user" := VStr "me@gmail.com"]}])
             (Demo.world0 Demo.relay_accepting) in
  let w1 := snd (load_defaults_from_mongo Demo.cfg0 w) in
  defaults_collection w1 = defaults_collection w
  /\ default_subject (session w1) = VStr "".
Proof.
  intros w w1.
  destruct (load_defaults_existing Demo.cfg0 w {["user" := VStr "me@gmail.com"]}
              eq_refl)
    as (_ & H1 & _ & _ & _ & H2 & _).
  - vm_compute. reflexivity.
  - split; [exact H1|]. apply H2. vm_compute. reflexivity.
Defined.

(** When the store cannot be reached, neither loading nor saving raises:
    each shows one error and leaves the collection alone; loading leaves
    the session alone, while the save handler has already put the new
    defaults in the session. *)
Theorem defaults_store_unreachable (cfg : Config) (subject body : string)
    (d_files : list UploadedFile) (w : World)
    (Hdown : mongo_up w = false) :
  load_defaults_from_mongo cfg w
  = (Ok tt,
     with_page (fun p => p ++ [StError
        "Error loading defaults from MongoDB: connection failure"]) w)
  /\ (let run := save_defaults_handler cfg subject body d_files w in
      fst run = Ok tt
      /\ defaults_collection (snd run) = defaults_collection w
      /\ page (snd run)
         = page w ++ [StError
             "Error saving defaults to MongoDB: connection failure"]
      /\ default_subject (session (snd run)) = VStr subject
      /\ default_body (session (snd run)) = VStr body
      /\ default_files (session (snd run)) = d_files
      /\ default_file_metadata (session (snd run))
         = VMeta (file_metadata_of d_files)).
Proof.
  split.
  - unfold load_defaults_from_mongo, try_except, bind, mongo_call.
    by rewrite Hdown.
  - unfold save_defaults_handler, save_defaults_to_mongo, try_except, bind,
      mongo_call, modify. cbn [fst snd mongo_up with_session].
    rewrite Hdown. cbn. done.
Qed.

Lemma defaults_store_unreachable_witness :
  let w := {| fs := ∅; tmp_dir := "/tmp"; tmp_candidates := [];
              disk_free := 0; undeletable := ∅; unreadable := ∅;
              relay := Demo.relay_accepting; smtp_log := []; page := [];
              call_log := []; session := Demo.session0; mongo_up := false;
              defaults_collection := [] |} in
  let run := save_defaults_handler Demo.cfg0 "S" "B" [Demo.note_txt] w in
  fst run = Ok tt
  /\ defaults_collection (snd run) = []
  /\ default_subject (session (snd run)) = VStr "S".
Proof.
  intros w run.
  destruct (defaults_store_unreachable Demo.cfg0 "S" "B" [Demo.note_txt] w
              eq_refl) as (_ & H1 & H2 & _ & H3 & _).
  split; [exact H1|]. split; [exact H2 | exact H3].
Defined.

End store_facts.

Section upsert_facts.
Import PyStr Py Os Mongo Parts.

Lemma upsert_other owner other subject body meta
    (coll : list (gmap string value)) :
  other <> owner ->
  find_one other (update_one_upsert owner (saved_fields subject body meta) coll)
  = find_one other coll.
Proof.
  intros Hne. unfold find_one.
  induction coll as [|d coll IH]; cbn [update_one_upsert List.find].
  - rewrite is_owned_by_set_fields. unfold is_owned_by.
    rewrite lookup_singleton_eq, bool_decide_eq_false_2; [done|].
    intros [= ->]. done.
  - destruct (is_owned_by owner d) eqn:E; cbn [List.find].
    + rewrite is_owned_by_set_fields.
      assert (is_owned_by other d = false) as ->; [|done].
      unfold is_owned_by in *. apply bool_decide_eq_true_1 in E.
      rewrite E. apply bool_decide_eq_false_2. intros [= ->]. done.
    + by rewrite IH.
Qed.

Lemma upsert_length owner fields (coll : list (gmap string value)) :
  length (update_one_upsert owner fields coll)
  = length coll + match find_one owner coll with Some _ => 0 | None => 1 end.
Proof.
  unfold find_one.
  induction coll as [|d coll IH]; cbn [update_one_upsert List.find]; [done|].
  destruct (is_owned_by owner d); simpl; [lia | by rewrite IH].
Qed.

Lemma upsert_owner owner subject body meta
    (coll : list (gmap string value)) d :
  find_one owner coll = Some d ->
  find_one owner (update_one_upsert owner (saved_fields subject body meta) coll)
  = Some (set_fields (saved_fields subject body meta) d).
Proof.
  unfold find_one.
  induction coll as [|d0 coll IH]; cbn [update_one_upsert List.find]; [done|].
  destruct (is_owned_by owner d0) eqn:E; cbn [List.find].
  - intros [= ->]. by rewrite is_owned_by_set_fields, E.
  - by rewrite E.
Qed.

Lemma set_fields_other subject body meta (d : gmap string value) k :
  k <> "subject" -> k <> "body" -> k <> "file_metadata" ->
  set_fields (saved_fields subject body meta) d !! k = d !! k.
Proof.
  intros H1 H2 H3. unfold set_fields. simpl.
  by rewrite !lookup_insert_ne.
Qed.

Lemma set_fields_idem subject body meta (d : gmap string value) :
  set_fields (saved_fields subject body meta)
    (set_fields (saved_fields subject body meta) d)
  = set_fields (saved_fields subject body meta) d.
Proof.
  apply map_eq. intros k. unfold set_fields. simpl.
  rewrite !lookup_insert. repeat case_decide; done.
Qed.

Lemma upsert_idem owner subject body meta (coll : list (gmap string value)) :
  update_one_upsert owner (saved_fields subject body meta)
    (update_one_upsert owner (saved_fields subject body meta) coll)
  = update_one_upsert owner (saved_fields subject body meta) coll.
Proof.
  induction coll as [|d coll IH]; cbn [update_one_upsert].
  - rewrite is_owned_by_set_fields. unfold is_owned_by at 1.
    rewrite lookup_singleton_eq, bool_decide_eq_true_2 by done.
    by rewrite set_fields_idem.
  - destruct (is_owned_by owner d) eqn:E; cbn [update_one_upsert].
    + by rewrite is_owned_by_set_fields, E, set_fields_idem.
    + by rewrite E, IH.
Qed.

Lemma save_defaults_world (cfg : Config) (subject body : string)
    (meta : list FileMeta) (w : World) :
  mongo_up w = true ->
  let w1 := snd (save_defaults_to_mongo cfg subject body meta w) in
  defaults_collection w1
  = update_one_upsert (GMAIL_USER cfg) (saved_fields subject body meta)
      (defaults_collection w)
  /\ mongo_up w1 = true.
Proof.
  intros Hup. unfold save_defaults_to_mongo, try_except, bind, mongo_call,
    st_success, modify.
  rewrite Hup. cbn. by rewrite Hup.
Qed.

(** Saving is an upsert on the owner's document alone: the documents of the
    other owners are found as before, the collection grows by one document
    exactly when the owner had none, and in the owner's document only
    [subject], [body] and [file_metadata] change. *)
Theorem save_defaults_upsert (cfg : Config) (subject body : string)
    (meta : list FileMeta) (w : World) (Hup : mongo_up w = true) :
  let coll := defaults_collection w in
  let coll' := defaults_collection
                 (snd (save_defaults_to_mongo cfg subject body meta w)) in
  (forall other, other <> GMAIL_USER cfg ->
     find_one other coll' = find_one other coll)
  /\ length coll'
     = length coll
       + match find_one (GMAIL_USER cfg) coll with Some _ => 0 | None => 1 end
  /\ (forall d, find_one (GMAIL_USER cfg) coll = Some d ->
        exists d', find_one (GMAIL_USER cfg) coll' = Some d'
          /\ forall k, k <> "subject" -> k <> "body" -> k <> "file_metadata" ->
               d' !! k = d !! k).
Proof.
  destruct (save_defaults_world cfg subject body meta w Hup) as [-> _].
  split; [|split].
  - intros other Hne. by apply upsert_other.
  - apply upsert_length.
  - intros d Hd. eexists. split; [by apply upsert_owner|].
    apply set_fields_other.
Qed.

Lemma save_defaults_upsert_witness :
  let w := with_defaults_collection
             (fun _ => [{["user" := VStr "you@gmail.com"]}])
             (Demo.world0 Demo.relay_accepting) in
  let coll' := defaults_collection
                 (snd (save_defaults_to_mongo Demo.cfg0 "S" "B" [] w)) in
  find_one "you@gmail.com" coll' = Some {["user" := VStr "you@gmail.com"]}
  /\ length coll' = 2.
Proof.
  intros w coll'.
  destruct (save_defaults_upsert Demo.cfg0 "S" "B" [] w eq_refl)
    as (H1 & H2 & _).
  split.
  - subst coll'. rewrite H1 by done. vm_compute. reflexivity.
  - subst coll'. rewrite H2. vm_compute. reflexivity.
Defined.

(** Saving the same defaults a second time leaves the collection as the
    first save left it. *)
Theorem save_defaults_twice (cfg : Config) (subject body : string)
    (meta : list FileMeta) (w : World) (Hup : mongo_up w = true) :
  let w1 := snd (save_defaults_to_mongo cfg subject body meta w) in
  let w2 := snd (save_defaults_to_mongo cfg subject body meta w1) in
  defaults_collection w2 = defaults_collection w1.
Proof.
  destruct (save_defaults_world cfg subject body meta w Hup) as [E1 Hup1].
  cbn zeta in *.
  destruct (save_defaults_world cfg subject body meta _ Hup1) as [E2 _].
  cbn zeta in *. rewrite E2, E1. apply upsert_idem.
Qed.

Lemma save_defaults_twice_witness :
  let w := Demo.world0 Demo.relay_accepting in
  let w1 := snd (save_defaults_to_mongo Demo.cfg0 "S" "B" [] w) in
  let w2 := snd (save_defaults_to_mongo Demo.cfg0 "S" "B" [] w1) in
  defaults_collection w2 = defaults_collection w1.
Proof.
  exact (save_defaults_twice Demo.cfg0 "S" "B" []
           (Demo.world0 Demo.relay_accepting) eq_refl).
Defined.

End upsert_facts.

(** ** Start of the script *)

Section startup_facts.
Import PyStr Startup.

Lemma missing_false (x : option string) :
  missing x = false <-> exists s, x = Some s /\ s <> "".
Proof.
  destruct x as [[|a s]|]; simpl; split; try done.
  - by intros (s & [= <-] & H).
  - intros _. by eexists.
  - by intros (s & ? & _).
Qed.

(** The script goes on past the configuration block exactly when the four
    variables are set and not empty, and then with their values; otherwise
    it stops after showing one error. *)
Theorem load_env_loaded_iff (env : gmap string string) :
  (forall cfg mu mp,
     load_env env = Loaded cfg mu mp <->
     env !! "GMAIL_EMAIL" = Some (GMAIL_USER cfg) /\ GMAIL_USER cfg <> ""
     /\ env !! "GMAIL_APP_PASSWORD" = Some (GMAIL_APP_PASSWORD cfg)
     /\ GMAIL_APP_PASSWORD cfg <> ""
     /\ env !! "MONGODB_USERNAME" = Some mu /\ mu <> ""
     /\ env !! "MONGODB_PASSWORD" = Some mp /\ mp <> "")
  /\ (forall shown, load_env env = Stopped shown -> length shown = 1).
Proof.
  unfold load_env. split.
  - intros [user pw] mu mp. cbn [GMAIL_USER GMAIL_APP_PASSWORD].
    destruct (env !! "GMAIL_EMAIL") as [[|a1 s1]|];
      destruct (env !! "GMAIL_APP_PASSWORD") as [[|a2 s2]|];
      destruct (env !! "MONGODB_USERNAME") as [[|a3 s3]|];
      destruct (env !! "MONGODB_PASSWORD") as [[|a4 s4]|];
      simpl; (split; intros H); try done;
      try (destruct H as (? & ? & ? & ? & ? & ? & ? & ?));
      simplify_eq/=; done.
  - intros shown.
    repeat match goal with
    | |- context [missing ?x] => destruct (missing x)
    end; simpl; by intros [= <-].
Qed.

Lemma init_key_keeps {V} (st : gmap string V) kd k v :
  st !! k = Some v -> init_key st kd !! k = Some v.
Proof.
  intros H. unfold init_key. destruct (st !! kd.1) eqn:E; [done|].
  rewrite lookup_insert_ne; [done|]. intros Heq. rewrite Heq in E.
  congruence.
Qed.

Lemma init_session_state_cons {V} kd (l : list (string * V)) st :
  init_session_state (kd :: l) st = init_session_state l (init_key st kd).
Proof. done. Qed.

Lemma init_session_state_keeps_value {V} (defaults : list (string * V)) :
  forall (st : gmap string V) k v,
    st !! k = Some v -> init_session_state defaults st !! k = Some v.
Proof.
  induction defaults as [|kd l IH]; intros st k v H; [done|].
  rewrite init_session_state_cons. by apply IH, init_key_keeps.
Qed.

Lemma init_session_state_defined {V} (defaults : list (string * V)) :
  forall (st : gmap string V) kd,
    kd ∈ defaults -> is_Some (init_session_state defaults st !! kd.1).
Proof.
  induction defaults as [|kd0 l IH]; intros st kd H.
  - by apply elem_of_nil in H.
  - rewrite init_session_state_cons.
    apply elem_of_cons in H as [-> | H]; [|by apply IH].
    assert (is_Some (init_key st kd0 !! kd0.1)) as [v Hv].
    { unfold init_key. destruct (st !! kd0.1) eqn:E; [by rewrite E|].
      rewrite lookup_insert_eq. eauto. }
    rewrite (init_session_state_keeps_value l _ _ _ Hv). eauto.
Qed.

Lemma init_session_state_other {V} (defaults : list (string * V)) :
  forall (st : gmap string V) k,
    k ∉ defaults.*1 -> init_session_state defaults st !! k = st !! k.
Proof.
  induction defaults as [|kd l IH]; intros st k H; [done|].
  rewrite init_session_state_cons.
  simpl in H. apply not_elem_of_cons in H as [Hne H].
  rewrite (IH _ _ H). unfold init_key.
  destruct (st !! kd.1); [done|]. by rewrite lookup_insert_ne.
Qed.

Lemma init_session_state_fixed {V} (defaults : list (string * V)) :
  forall st : gmap string V,
    (forall kd, kd ∈ defaults -> is_Some (st !! kd.1)) ->
    init_session_state defaults st = st.
Proof.
  induction defaults as [|kd l IH]; intros st H; [done|].
  rewrite init_session_state_cons. unfold init_key.
  destruct (H kd ltac:(left)) as [v ->].
  apply IH. intros kd' Hkd'. apply H. by right.
Qed.

(** Initialising the session state never replaces a value the session
    holds, defines the five keys, leaves every other key alone, and changes
    nothing when it runs again. *)
Theorem init_session_state_spec {V} (empty_str empty_list : V)
    (st : gmap string V) :
  let init := init_session_state (session_defaults empty_str empty_list) in
  (forall k v, st !! k = Some v -> init st !! k = Some v)
  /\ (forall k, k ∈ ["default_subject"; "default_body"; "default_files";
                     "default_file_metadata"; "tmp_paths"] ->
        is_Some (init st !! k))
  /\ (forall k, k ∉ ["default_subject"; "default_body"; "default_files";
                     "default_file_metadata"; "tmp_paths"] ->
        init st !! k = st !! k)
  /\ (st !! "default_subject" = None ->
        init st !! "default_subject" = Some empty_str)
  /\ init (init st) = init st.
Proof.
  cbn zeta. split; [|split; [|split; [|split]]].
  - apply init_session_state_keeps_value.
  - intros k Hk.
    change (k ∈ (session_defaults empty_str empty_list).*1) in Hk.
    apply list_elem_of_fmap in Hk as ([k' d] & -> & Hd).
    exact (init_session_state_defined _ st (k', d) Hd).
  - intros k Hk. by apply init_session_state_other.
  - intros Hnone. unfold session_defaults.
    rewrite init_session_state_cons. unfold init_key at 1. simpl.
    rewrite Hnone.
    apply (init_session_state_keeps_value
             [("default_body", empty_str); ("default_files", empty_list);
              ("default_file_metadata", empty_list);
              ("tmp_paths", empty_list)]).
    apply lookup_insert_eq.
  - apply init_session_state_fixed. intros kd Hkd.
    by apply init_session_state_defined.
Qed.

End startup_facts.

(** ** Staging: when it returns, and a batch over the cap *)

Section staging_more_facts.
Import PyStr Py Os Main Parts.

(** [save_uploaded_files_to_tmp] returns when the names it draws do not
    collide and the disk has room for the files within the cap; each of
    these files takes the next name of the supply, in order. *)
Theorem save_uploaded_files_to_tmp_returns (files : list UploadedFile)
    (w : World)
    (Hnames : length (List.filter within_cap files) <= length (tmp_candidates w))
    (Hdistinct : NoDup (drawn_paths w (List.filter within_cap files)))
    (Hfresh : Forall (fun p => fs w !! p = None)
                (drawn_paths w (List.filter within_cap files)))
    (Hroom : total_bytes (List.filter within_cap files) <= disk_free w) :
  fst (save_uploaded_files_to_tmp files w)
  = Ok (drawn_paths w (List.filter within_cap files)).
Proof.
  destruct (stage_loop_returns files [] w Hnames Hdistinct Hfresh Hroom)
    as [w' E].
  unfold save_uploaded_files_to_tmp. by rewrite E.
Qed.

Lemma save_uploaded_files_to_tmp_returns_witness :
  fst (save_uploaded_files_to_tmp
         [Demo.note_txt; Demo.big_bin; Demo.photo_png]
         (Demo.world0 Demo.relay_accepting))
  = Ok ["/tmp/stmail_k3v9x0aa.txt"; "/tmp/stmail_q1w2e3r4.png"].
Proof.
  apply (save_uploaded_files_to_tmp_returns
           [Demo.note_txt; Demo.big_bin; Demo.photo_png]
           (Demo.world0 Demo.relay_accepting)).
  - vm_compute. lia.
  - apply (bool_decide_unpack _). vm_compute. exact I.
  - vm_compute. repeat constructor.
  - vm_compute. lia.
Defined.

Lemma stage_loop_all_oversized (files : list UploadedFile) :
  Forall (fun f => (max_size < uf_size f)%Z) files ->
  forall (acc : list string) (w : World),
    stage_loop files acc w
    = (Ok acc,
       with_page
         (fun p => p ++ map (fun f => StWarning (too_large_warning f)) files)
         w).
Proof.
  induction 1 as [|f files Hf Hover IH]; intros acc w.
  - simpl. unfold ret. f_equal. destruct w. unfold with_page. simpl.
    by rewrite app_nil_r.
  - cbn [stage_loop]. unfold bind.
    rewrite stage_file_oversized.
    2: { unfold within_cap. apply Z.leb_gt. exact Hf. }
    rewrite IH. f_equal. unfold with_page. simpl.
    by rewrite <- List.app_assoc.
Qed.

(** A batch in which every file is over the cap never fails: the call
    returns no path, shows one warning for each file in order, and touches
    neither the files nor the supply of names, even on a full disk. *)
Theorem save_uploaded_files_to_tmp_all_oversized (files : list UploadedFile)
    (w : World)
    (Hover : Forall (fun f => (10 * 1024 * 1024 < uf_size f)%Z) files) :
  save_uploaded_files_to_tmp files w
  = (Ok [],
     with_page
       (fun p => p ++ map (fun f => StWarning (too_large_warning f)) files) w).
Proof. by apply stage_loop_all_oversized. Qed.

Lemma save_uploaded_files_to_tmp_all_oversized_witness :
  save_uploaded_files_to_tmp [Demo.big_bin; Demo.big_bin]
    (Demo.world_with_room 0)
  = (Ok [],
     with_page
       (fun p => p ++ [StWarning (too_large_warning Demo.big_bin);
                       StWarning (too_large_warning Demo.big_bin)])
       (Demo.world_with_room 0)).
Proof.
  apply (save_uploaded_files_to_tmp_all_oversized [Demo.big_bin; Demo.big_bin]).
  repeat constructor.
Defined.

End staging_more_facts.

(** ** The send handler: what is sent and what is reported *)

Section sending_facts.
Import PyStr Py Os Email Main Parts.







End sending_facts.
